(** * qDotBlot96: the grid model, the contrast adjuster and the ROI
      measurement pass of [ht-qdotblot.py], embedded in Rocq.

    Conventions of the embedding.
    - Python [int]s are [Z] (or [nat] where the code only counts with them:
      [nrows], [ncols], loop indices).
    - Floating point comes in two layers.  Module [App] evaluates the
      expressions of the program on exact rationals extended with the
      three IEEE specials that a division by zero leaves ([Np.float64]);
      it carries the properties that do not depend on rounding: the state
      machine, the windows, the integer statistics, the order in which the
      adjuster maps samples.  Module [F64] evaluates the same expressions
      in IEEE 754 binary64 as numpy does: every operation is rounded to
      the nearest value, ties to even, and overflows to an infinity (the
      sign of zero is not tracked).  What the program computes for the
      grid centers and for the contrast stretch is stated on [F64].
    - Python exceptions are explicit ([Py.res]).
    - The Qt scene, widgets, cursor and colours are not part of the state;
      the lists that track scene items ([circles], [labels], ...) are, as
      plain values.  Whether the Qt object behind a tracked item is still
      alive is not modelled: [image_scene.clear()] in [update_image]
      deletes the items that the lists track, and PySide raises
      RuntimeError when [erase_grid] or [measure_grid] touches such an
      item.  The state machine describes the slots when no such error
      interrupts them. *)

From Stdlib Require Import String Ascii DecimalString DecimalNat.
From Stdlib Require Import ZArith QArith Qround Qabs Qminmax Qpower.
From Stdlib Require Import List Bool Lia Lqa.
From Stdlib Require Import Sorted.
Import ListNotations.

Set Implicit Arguments.

(* ================================================================== *)
(** * Python: exceptions, slices, [int()]                               *)
(* ================================================================== *)

Module Py.

Inductive exn : Type :=
| ValueError
| OverflowError.

(** Result of a computation that may raise. *)
Inductive res (A : Type) : Type :=
| Ret (a : A)
| Raise (e : exn).
Arguments Ret {A} a.
Arguments Raise {A} e.

Definition bind {A B : Type} (m : res A) (k : A -> res B) : res B :=
  match m with
  | Ret a => k a
  | Raise e => Raise e
  end.

(** One bound of [a[start:stop]] on a sequence of length [n]: a negative
    bound counts from the end, and the result is clipped to [0..n]. *)
Definition slice_index (n i : Z) : Z :=
  if (i <? 0)%Z then Z.max 0 (i + n) else Z.min i n.

(** [l[start:stop]] *)
Definition slice {A : Type} (l : list A) (start stop : Z) : list A :=
  let n := Z.of_nat (length l) in
  let lo := slice_index n start in
  let hi := slice_index n stop in
  firstn (Z.to_nat (hi - lo)) (skipn (Z.to_nat lo) l).

(** [int(x)] on a finite float: truncation toward zero. *)
Definition trunc (q : Q) : Z := Z.quot (Qnum q) (Zpos (Qden q)).

End Py.

Notation "x <- m ;; k" := (Py.bind m (fun x => k))
  (at level 61, m at next level, right associativity).

(* ================================================================== *)
(** * numpy                                                            *)
(* ================================================================== *)

Module Np.

Import Py.

(** [float64]: a finite value, or what a division by zero leaves. *)
Inductive float64 : Type :=
| Fin (q : Q)
| PInf
| NInf
| NaN.

Definition Qltb (a b : Q) : bool := negb (Qle_bool b a).

Definition fsub (a b : float64) : float64 :=
  match a, b with
  | NaN, _ | _, NaN => NaN
  | Fin x, Fin y => Fin (x - y)
  | Fin _, PInf => NInf
  | Fin _, NInf => PInf
  | PInf, PInf => NaN
  | PInf, _ => PInf
  | NInf, NInf => NaN
  | NInf, _ => NInf
  end.

Definition signed_inf (positive : bool) : float64 :=
  if positive then PInf else NInf.

Definition fmul (a b : float64) : float64 :=
  match a, b with
  | NaN, _ | _, NaN => NaN
  | Fin x, Fin y => Fin (x * y)
  | Fin x, PInf | PInf, Fin x =>
      if Qeq_bool x 0 then NaN else signed_inf (Qltb 0 x)
  | Fin x, NInf | NInf, Fin x =>
      if Qeq_bool x 0 then NaN else signed_inf (Qltb x 0)
  | PInf, PInf | NInf, NInf => PInf
  | PInf, NInf | NInf, PInf => NInf
  end.

(** Array division: a zero divisor gives [nan] (0/0) or a signed
    infinity, with a RuntimeWarning but no exception.  The zero divisors
    of this program are differences [v - v], that is [+0.0]. *)
Definition fdiv (a b : float64) : float64 :=
  match a, b with
  | NaN, _ | _, NaN => NaN
  | Fin x, Fin y =>
      if Qeq_bool y 0
      then (if Qeq_bool x 0 then NaN else signed_inf (Qltb 0 x))
      else Fin (x / y)
  | Fin _, _ => Fin 0
  | PInf, Fin y => signed_inf (Qle_bool 0 y)
  | NInf, Fin y => signed_inf (Qltb y 0)
  | _, _ => NaN
  end.

(** [np.clip(x, lo, hi)] = [minimum(maximum(x, lo), hi)]; nan stays nan. *)
Definition clip (x : float64) (lo hi : Q) : float64 :=
  match x with
  | Fin q => Fin (Qmin (Qmax q lo) hi)
  | PInf => Fin hi
  | NInf => Fin (Qmin lo hi)
  | NaN => NaN
  end.

(** [x.astype(np.uint16)] of a float: truncation for a value that fits;
    numpy leaves the cast of nan, infinities and values out of range
    unspecified ([None]). *)
Definition astype_uint16 (x : float64) : option Z :=
  match x with
  | Fin q => if Qle_bool 0 q && Qle_bool q 65535 then Some (trunc q) else None
  | _ => None
  end.

(** [int(x)] of a numpy float scalar. *)
Definition int_ (x : float64) : res Z :=
  match x with
  | Fin q => Ret (trunc q)
  | NaN => Raise ValueError
  | PInf | NInf => Raise OverflowError
  end.

(** ** Sorting (ascending), as [np.sort] / the partition inside
       [np.percentile] and [np.median] *)

Fixpoint insert (x : Z) (l : list Z) : list Z :=
  match l with
  | [] => [x]
  | y :: l' => if (x <=? y)%Z then x :: l else y :: insert x l'
  end.

Fixpoint sort (l : list Z) : list Z :=
  match l with
  | [] => []
  | x :: l' => insert x (sort l')
  end.

(** ** [np.percentile(a, q)] with the default linear interpolation *)

(** The value at fraction [q / 100] of the ascending samples [s]
    (the head [s0] serves as the default of [nth]): the two neighbours
    of the virtual index [(n - 1) q / 100] and the interpolation between
    them. *)
Definition linear_quantile (s : list Z) (s0 : Z) (q : Q) : Q :=
  let n := Z.of_nat (length s) in
  let virtual_index := inject_Z (n - 1) * (q / 100) in
  let previous := Qfloor virtual_index in
  let next := Z.min (previous + 1) (n - 1) in
  let gamma := virtual_index - inject_Z previous in
  let lo := inject_Z (nth (Z.to_nat previous) s s0) in
  let hi := inject_Z (nth (Z.to_nat next) s s0) in
  lo + (hi - lo) * gamma.

(** A percentile outside [0, 100] is refused; the empty array gives nan. *)
Definition percentile (a : list Z) (q : Q) : res float64 :=
  if negb (Qle_bool 0 q && Qle_bool q 100) then Raise ValueError
  else
    match sort a with
    | [] => Ret NaN
    | (s0 :: _) as s => Ret (Fin (linear_quantile s s0 q))
    end.

(** ** Reductions over a flattened window *)

Definition sumZ (l : list Z) : Z := fold_right Z.add 0%Z l.
(** Sums of rationals are kept in lowest terms. *)
Definition sumQ (l : list Q) : Q := fold_right (fun a b => Qred (a + b)) 0 l.
Definition len (l : list Z) : Q := inject_Z (Z.of_nat (length l)).

(** [np.mean]: nan (and a warning) on an empty array. *)
Definition mean (l : list Z) : float64 :=
  match l with
  | [] => NaN
  | _ => Fin (inject_Z (sumZ l) / len l)
  end.

(** [np.median]: the middle value, or the mean of the two middle ones. *)
Definition median (l : list Z) : float64 :=
  match sort l with
  | [] => NaN
  | (s0 :: _) as s =>
      let n := length s in
      if Nat.even n
      then Fin ((inject_Z (nth (n / 2 - 1) s s0) + inject_Z (nth (n / 2) s s0)) / 2)
      else Fin (inject_Z (nth (n / 2) s s0))
  end.

(** [np.var] (population variance); [np.std] is its square root, which
    is not rational: the model keeps the variance. *)
Definition var (l : list Z) : float64 :=
  match l with
  | [] => NaN
  | _ =>
      let m := inject_Z (sumZ l) / len l in
      Fin (sumQ (map (fun v => (inject_Z v - m) * (inject_Z v - m)) l) / len l)
  end.

Definition maximum (x : Z) (l : list Z) : Z := fold_left Z.max l x.
Definition minimum (x : Z) (l : list Z) : Z := fold_left Z.min l x.

(** [np.min] / [np.max]: ValueError on an empty array. *)
Definition amin (l : list Z) : res Z :=
  match l with
  | [] => Raise ValueError
  | x :: l' => Ret (minimum x l')
  end.

Definition amax (l : list Z) : res Z :=
  match l with
  | [] => Raise ValueError
  | x :: l' => Ret (maximum x l')
  end.

Definition count (v : Z) (l : list Z) : nat := count_occ Z.eq_dec l v.

(** [np.bincount(x)]: entry [v] counts the occurrences of [v], for
    [v] in [0 .. max(x)]; the empty array gives the empty table; a
    negative entry is refused. *)
Definition bincount (l : list Z) : res (list nat) :=
  match l with
  | [] => Ret []
  | x :: l' =>
      if existsb (fun v => (v <? 0)%Z) l then Raise ValueError
      else Ret (map (fun v => count (Z.of_nat v) l)
                    (seq 0 (Z.to_nat (maximum x l') + 1)))
  end.

(** [np.argmax]: the first index of the largest entry; ValueError on an
    empty array. *)
Fixpoint argmax_from (best_i best_v i : nat) (c : list nat) : nat :=
  match c with
  | [] => best_i
  | x :: c' =>
      if (best_v <? x)%nat then argmax_from i x (S i) c'
      else argmax_from best_i best_v (S i) c'
  end.

Definition argmax (c : list nat) : res nat :=
  match c with
  | [] => Raise ValueError
  | x :: c' => Ret (argmax_from 0 x 1 c')
  end.

(** ** Two-dimensional arrays of integer samples, row-major *)

Definition ndarray := list (list Z).

Definition shape0 (a : ndarray) : Z := Z.of_nat (length a).
Definition shape1 (a : ndarray) : Z :=
  match a with
  | [] => 0%Z
  | r :: _ => Z.of_nat (length r)
  end.

(** [a[y0:y1, x0:x1]] *)
Definition slice2 (a : ndarray) (y0 y1 x0 x1 : Z) : ndarray :=
  map (fun r => slice r x0 x1) (slice a y0 y1).

Definition ravel (a : ndarray) : list Z := concat a.

Definition rectangular (a : ndarray) : Prop :=
  forall r, In r a -> Z.of_nat (length r) = shape1 a.

(** Every sample is an unsigned 16-bit value. *)
Definition is_uint16 (a : ndarray) : bool :=
  forallb (forallb (fun v => ((0 <=? v) && (v <=? 65535))%Z)) a.

End Np.

(* ================================================================== *)
(** * OpenCV                                                           *)
(* ================================================================== *)

Module Cv2.

(** [cvRound]: round to nearest, ties to even. *)
Definition cvRound (q : Q) : Z :=
  let f := Qfloor q in
  let r := q - inject_Z f in
  if Np.Qltb r (1 # 2) then f
  else if Np.Qltb (1 # 2) r then (f + 1)%Z
  else if Z.even f then f else (f + 1)%Z.

(** [saturate_cast<uchar>] *)
Definition saturate_uchar (z : Z) : Z := Z.max 0 (Z.min 255 z).

(** [cv2.convertScaleAbs(src, alpha, beta)] on one sample: "scales,
    calculates absolute values, and converts the result to 8-bit":
    [dst = saturate_cast<uchar>(|src * alpha + beta|)]. *)
Definition convertScaleAbs1 (alpha beta : Q) (v : Z) : Z :=
  saturate_uchar (cvRound (Qabs (inject_Z v * alpha + beta))).

Definition convertScaleAbs (src : Np.ndarray) (alpha beta : Q) : Np.ndarray :=
  map (map (convertScaleAbs1 alpha beta)) src.

(** Sample depth of a decoded image ([cv2.imread(.., IMREAD_UNCHANGED)]). *)
Inductive dtype : Type :=
| uint8
| uint16.

Record Mat : Type := { depth : dtype; samples : Np.ndarray }.

End Cv2.

(* ================================================================== *)
(** * The application: [WellGridApp]                                   *)
(* ================================================================== *)

Module App.

Import Py Np.

(** ** Constants *)
Definition ROI_RADIUS : Z := 15.
Definition SATURATION : Q := 5 # 100.
Definition ROWS : nat := 8.
Definition COLUMNS : nat := 12.
Definition MAXINT16 : Q := 65535.
Definition MAXINT8 : Q := 255.

(** ** Geometry *)

Definition vec : Type := (Q * Q)%type.

Definition vadd (a b : vec) : vec := (fst a + fst b, snd a + snd b).
Definition vsub (a b : vec) : vec := (fst a - fst b, snd a - snd b).
Definition vscale (k : Q) (a : vec) : vec := (k * fst a, k * snd a).
Definition vdiv (a : vec) (k : Q) : vec := (fst a / k, snd a / k).
Definition vecZ (o : Z * Z) : vec := (inject_Z (fst o), inject_Z (snd o)).
Definition Qnat (n : nat) : Q := inject_Z (Z.of_nat n).

(** Geometry of a [QGraphicsEllipseItem] / [QRectF]: x, y, width, height. *)
Record rect : Type := { rx : Q; ry : Q; rw : Q; rh : Q }.

(** [QRectF.center()] *)
Definition rect_center (r : rect) : vec := (rx r + rw r / 2, ry r + rh r / 2).

(** [QLineF(x1, y1, x2, y2)] *)
Record line : Type := { p1 : vec; p2 : vec }.

(** ** Well names: [chr(ord('A') + row)] followed by [f"{col + 1:02}"] *)

Definition zero_pad2 (n : nat) : string :=
  let d := NilEmpty.string_of_uint (Nat.to_uint n) in
  if (String.length d <? 2)%nat then ("0" ++ d)%string else d.

Definition get_well_name (row col : nat) : string :=
  String (ascii_of_nat (nat_of_ascii "A" + row)) (zero_pad2 (col + 1)).

(** ** Measurement records (the dict appended by [measure_grid]).
    The code stores [round(mean, 1)] and [round(std, 1)]; the model
    keeps the exact mean and the exact variance they are rounded from. *)
Record measurement : Type := {
  m_well : string;
  m_x_center : Z;
  m_y_center : Z;
  m_median : Z;
  m_mean : float64;
  m_var : float64;
  m_mode : Z;
  m_min : Z;
  m_max : Z
}.

(** ** The state: the attributes set by [init_variables] that the grid
    model, the definition state machine and the measurement pass use. *)
Record state : Type := {
  images : list ndarray;
  current_image : option ndarray;
  roi_radius : Z;
  nrows : nat;
  ncols : nat;
  grid_offset : Z * Z;
  grid_spacing : Z * Z;
  corners : list vec;
  corner_points : list rect;
  corner_lines : list line;
  circles : list rect;
  labels : list string;
  measurements : list measurement;
  saturation_fraction : Q;
  defining_grid : bool;
  grid_defined : bool;
  spacing_increment : Z
}.

Definition init_variables : state := {|
  images := [];
  current_image := None;
  roi_radius := ROI_RADIUS;
  nrows := ROWS;
  ncols := COLUMNS;
  grid_offset := (0, 0)%Z;
  grid_spacing := (0, 0)%Z;
  corners := [];
  corner_points := [];
  corner_lines := [];
  circles := [];
  labels := [];
  measurements := [];
  saturation_fraction := SATURATION;
  defining_grid := false;
  grid_defined := false;
  spacing_increment := 1
|}.

(** Attribute assignments. *)
Definition set_images (v : list ndarray) (s : state) : state :=
  {| images := v; current_image := current_image s; roi_radius := roi_radius s;
     nrows := nrows s; ncols := ncols s; grid_offset := grid_offset s;
     grid_spacing := grid_spacing s; corners := corners s;
     corner_points := corner_points s; corner_lines := corner_lines s;
     circles := circles s; labels := labels s; measurements := measurements s;
     saturation_fraction := saturation_fraction s;
     defining_grid := defining_grid s; grid_defined := grid_defined s;
     spacing_increment := spacing_increment s |}.

Definition set_current_image (v : option ndarray) (s : state) : state :=
  {| images := images s; current_image := v; roi_radius := roi_radius s;
     nrows := nrows s; ncols := ncols s; grid_offset := grid_offset s;
     grid_spacing := grid_spacing s; corners := corners s;
     corner_points := corner_points s; corner_lines := corner_lines s;
     circles := circles s; labels := labels s; measurements := measurements s;
     saturation_fraction := saturation_fraction s;
     defining_grid := defining_grid s; grid_defined := grid_defined s;
     spacing_increment := spacing_increment s |}.

Definition set_roi_radius (v : Z) (s : state) : state :=
  {| images := images s; current_image := current_image s; roi_radius := v;
     nrows := nrows s; ncols := ncols s; grid_offset := grid_offset s;
     grid_spacing := grid_spacing s; corners := corners s;
     corner_points := corner_points s; corner_lines := corner_lines s;
     circles := circles s; labels := labels s; measurements := measurements s;
     saturation_fraction := saturation_fraction s;
     defining_grid := defining_grid s; grid_defined := grid_defined s;
     spacing_increment := spacing_increment s |}.

Definition set_grid_offset (v : Z * Z) (s : state) : state :=
  {| images := images s; current_image := current_image s; roi_radius := roi_radius s;
     nrows := nrows s; ncols := ncols s; grid_offset := v;
     grid_spacing := grid_spacing s; corners := corners s;
     corner_points := corner_points s; corner_lines := corner_lines s;
     circles := circles s; labels := labels s; measurements := measurements s;
     saturation_fraction := saturation_fraction s;
     defining_grid := defining_grid s; grid_defined := grid_defined s;
     spacing_increment := spacing_increment s |}.

Definition set_grid_spacing (v : Z * Z) (s : state) : state :=
  {| images := images s; current_image := current_image s; roi_radius := roi_radius s;
     nrows := nrows s; ncols := ncols s; grid_offset := grid_offset s;
     grid_spacing := v; corners := corners s;
     corner_points := corner_points s; corner_lines := corner_lines s;
     circles := circles s; labels := labels s; measurements := measurements s;
     saturation_fraction := saturation_fraction s;
     defining_grid := defining_grid s; grid_defined := grid_defined s;
     spacing_increment := spacing_increment s |}.

Definition set_corners (v : list vec) (s : state) : state :=
  {| images := images s; current_image := current_image s; roi_radius := roi_radius s;
     nrows := nrows s; ncols := ncols s; grid_offset := grid_offset s;
     grid_spacing := grid_spacing s; corners := v;
     corner_points := corner_points s; corner_lines := corner_lines s;
     circles := circles s; labels := labels s; measurements := measurements s;
     saturation_fraction := saturation_fraction s;
     defining_grid := defining_grid s; grid_defined := grid_defined s;
     spacing_increment := spacing_increment s |}.

Definition set_corner_points (v : list rect) (s : state) : state :=
  {| images := images s; current_image := current_image s; roi_radius := roi_radius s;
     nrows := nrows s; ncols := ncols s; grid_offset := grid_offset s;
     grid_spacing := grid_spacing s; corners := corners s;
     corner_points := v; corner_lines := corner_lines s;
     circles := circles s; labels := labels s; measurements := measurements s;
     saturation_fraction := saturation_fraction s;
     defining_grid := defining_grid s; grid_defined := grid_defined s;
     spacing_increment := spacing_increment s |}.

Definition set_corner_lines (v : list line) (s : state) : state :=
  {| images := images s; current_image := current_image s; roi_radius := roi_radius s;
     nrows := nrows s; ncols := ncols s; grid_offset := grid_offset s;
     grid_spacing := grid_spacing s; corners := corners s;
     corner_points := corner_points s; corner_lines := v;
     circles := circles s; labels := labels s; measurements := measurements s;
     saturation_fraction := saturation_fraction s;
     defining_grid := defining_grid s; grid_defined := grid_defined s;
     spacing_increment := spacing_increment s |}.

Definition set_circles (v : list rect) (s : state) : state :=
  {| images := images s; current_image := current_image s; roi_radius := roi_radius s;
     nrows := nrows s; ncols := ncols s; grid_offset := grid_offset s;
     grid_spacing := grid_spacing s; corners := corners s;
     corner_points := corner_points s; corner_lines := corner_lines s;
     circles := v; labels := labels s; measurements := measurements s;
     saturation_fraction := saturation_fraction s;
     defining_grid := defining_grid s; grid_defined := grid_defined s;
     spacing_increment := spacing_increment s |}.

Definition set_labels (v : list string) (s : state) : state :=
  {| images := images s; current_image := current_image s; roi_radius := roi_radius s;
     nrows := nrows s; ncols := ncols s; grid_offset := grid_offset s;
     grid_spacing := grid_spacing s; corners := corners s;
     corner_points := corner_points s; corner_lines := corner_lines s;
     circles := circles s; labels := v; measurements := measurements s;
     saturation_fraction := saturation_fraction s;
     defining_grid := defining_grid s; grid_defined := grid_defined s;
     spacing_increment := spacing_increment s |}.

Definition set_measurements (v : list measurement) (s : state) : state :=
  {| images := images s; current_image := current_image s; roi_radius := roi_radius s;
     nrows := nrows s; ncols := ncols s; grid_offset := grid_offset s;
     grid_spacing := grid_spacing s; corners := corners s;
     corner_points := corner_points s; corner_lines := corner_lines s;
     circles := circles s; labels := labels s; measurements := v;
     saturation_fraction := saturation_fraction s;
     defining_grid := defining_grid s; grid_defined := grid_defined s;
     spacing_increment := spacing_increment s |}.

Definition set_saturation_fraction (v : Q) (s : state) : state :=
  {| images := images s; current_image := current_image s; roi_radius := roi_radius s;
     nrows := nrows s; ncols := ncols s; grid_offset := grid_offset s;
     grid_spacing := grid_spacing s; corners := corners s;
     corner_points := corner_points s; corner_lines := corner_lines s;
     circles := circles s; labels := labels s; measurements := measurements s;
     saturation_fraction := v;
     defining_grid := defining_grid s; grid_defined := grid_defined s;
     spacing_increment := spacing_increment s |}.

Definition set_defining_grid (v : bool) (s : state) : state :=
  {| images := images s; current_image := current_image s; roi_radius := roi_radius s;
     nrows := nrows s; ncols := ncols s; grid_offset := grid_offset s;
     grid_spacing := grid_spacing s; corners := corners s;
     corner_points := corner_points s; corner_lines := corner_lines s;
     circles := circles s; labels := labels s; measurements := measurements s;
     saturation_fraction := saturation_fraction s;
     defining_grid := v; grid_defined := grid_defined s;
     spacing_increment := spacing_increment s |}.

Definition set_grid_defined (v : bool) (s : state) : state :=
  {| images := images s; current_image := current_image s; roi_radius := roi_radius s;
     nrows := nrows s; ncols := ncols s; grid_offset := grid_offset s;
     grid_spacing := grid_spacing s; corners := corners s;
     corner_points := corner_points s; corner_lines := corner_lines s;
     circles := circles s; labels := labels s; measurements := measurements s;
     saturation_fraction := saturation_fraction s;
     defining_grid := defining_grid s; grid_defined := v;
     spacing_increment := spacing_increment s |}.

Definition set_spacing_increment (v : Z) (s : state) : state :=
  {| images := images s; current_image := current_image s; roi_radius := roi_radius s;
     nrows := nrows s; ncols := ncols s; grid_offset := grid_offset s;
     grid_spacing := grid_spacing s; corners := corners s;
     corner_points := corner_points s; corner_lines := corner_lines s;
     circles := circles s; labels := labels s; measurements := measurements s;
     saturation_fraction := saturation_fraction s;
     defining_grid := defining_grid s; grid_defined := grid_defined s;
     spacing_increment := v |}.

(** ** Image *)

(** [load_image], lines 384-388: what enters [self.images] for a file
    decoded as [m].  [astype(np.uint16)] keeps the value of an 8-bit
    sample. *)
Definition promote (m : Cv2.Mat) : ndarray :=
  match Cv2.depth m with
  | Cv2.uint16 => Cv2.samples m
  | _ => Cv2.convertScaleAbs (Cv2.samples m) (MAXINT16 / MAXINT8) 0
  end.

(** [adjust_image] before the final [astype(np.uint16)], on exact
    rationals; [F64.adjust_image_float] is its evaluation in binary64. *)
Definition adjust_image_float (f : Q) (image : ndarray)
  : res (list (list float64)) :=
  v_min <- percentile (ravel image) 0 ;;
  v_max <- percentile (ravel image) (100 - f * 100) ;;
  Ret (map (map (fun v =>
         clip (fdiv (fmul (fsub (Fin (inject_Z v)) v_min) (Fin MAXINT16))
                    (fsub v_max v_min))
              0 MAXINT16)) image).

(** [adjust_image]: a sample is [None] where numpy leaves the cast
    unspecified. *)
Definition adjust_image (s : state) (image : ndarray)
  : res (list (list (option Z))) :=
  a <- adjust_image_float (saturation_fraction s) image ;;
  Ret (map (map astype_uint16) a).

(** ** Grid *)

(** [erase_grid] removes items from the Qt scene only; the tracking
    lists keep their contents.  (On an item that [image_scene.clear()]
    has deleted, [item.scene()] raises RuntimeError instead: see the
    conventions.) *)
Definition erase_grid (s : state) : state := s.

Definition draw_orientation_lines (s : state) : state :=
  match corners s with
  | [a1; a12; h1] =>
      set_corner_lines [ {| p1 := a1; p2 := a12 |}; {| p1 := a1; p2 := h1 |} ] s
  | _ => s
  end.

(** The (row, column) pairs in the order of the two nested loops. *)
Definition cells (R C : nat) : list (nat * nat) :=
  flat_map (fun i => map (fun j => (i, j)) (seq 0 C)) (seq 0 R).

(** Line 765: [a1 + i * (row_vec + [0, sy]) + j * (col_vec + [sx, 0])]. *)
Definition grid_center (a1 row_vec col_vec : vec) (spacing : Z * Z)
           (i j : nat) : vec :=
  vadd (vadd a1 (vscale (Qnat i) (vadd row_vec (0, inject_Z (snd spacing)))))
       (vscale (Qnat j) (vadd col_vec (inject_Z (fst spacing), 0))).

(** [QGraphicsEllipseItem(cx - r, cy - r, 2 r, 2 r)] *)
Definition ellipse_item (center : vec) (r : Q) : rect :=
  {| rx := fst center - r; ry := snd center - r; rw := 2 * r; rh := 2 * r |}.

(** The centers of [draw_grid] (lines 748-765) on exact rationals, in
    loop order; [F64.grid_centers] is their evaluation in binary64.
    [nrows] and [ncols] are 8 and 12 in every state the program reaches,
    so the two divisors are never zero there. *)
Definition grid_centers (s : state) : list vec :=
  match corners s with
  | [c0; c1; c2] =>
      let a1 := c0 in
      let a12 := c1 in
      let h1 := c2 in
      let row_vec := vdiv (vsub h1 a1) (Qnat (nrows s) - 1) in
      let col_vec := vdiv (vsub a12 a1) (Qnat (ncols s) - 1) in
      let a1 := vadd a1 (vecZ (grid_offset s)) in
      map (fun ij => grid_center a1 row_vec col_vec (grid_spacing s) (fst ij) (snd ij))
          (cells (nrows s) (ncols s))
  | _ => []
  end.

Definition draw_grid (s : state) : state :=
  match corners s with
  | [_; _; _] =>
      set_labels (map (fun ij => get_well_name (fst ij) (snd ij))
                      (cells (nrows s) (ncols s)))
        (set_circles (map (fun c => ellipse_item c (inject_Z (roi_radius s)))
                          (grid_centers s)) s)
  | _ => s
  end.

Definition update_grid (s : state) : state :=
  draw_grid (draw_orientation_lines (erase_grid s)).

(** [update_image]: the adjusted image goes to the display only.  (Line
    413 clears the scene before the grid is redrawn: see the
    conventions.) *)
Definition update_image (s : state) : state :=
  match current_image s with
  | None => s
  | Some img =>
      match adjust_image s img with
      | Ret _ => update_grid s
      | Raise _ => s
      end
  end.

Definition show_image (selected_idx : nat) (s : state) : state :=
  match nth_error (images s) selected_idx with
  | Some img => update_image (set_current_image (Some img) s)
  | None => s
  end.

Definition load_image (m : Cv2.Mat) (s : state) : state :=
  let s := set_images (images s ++ [promote m]) s in
  if (List.length (images s) =? 1)%nat then show_image 0 s else s.

Definition adjust_saturation (value : Z) (s : state) : state :=
  update_image (set_saturation_fraction (inject_Z value / 1000) s).

Definition adjust_roi_radius (value : Z) (s : state) : state :=
  update_grid (set_roi_radius value s).

Definition remove_grid (s : state) : state :=
  set_corners []
    (set_corner_points []
      (set_corner_lines []
        (set_labels []
          (set_circles [] (erase_grid s))))).

Definition reset_grid (s : state) : state :=
  if grid_defined s then remove_grid (set_grid_defined false s) else s.

Definition define_grid (s : state) : state :=
  match current_image s with
  | None => s
  | Some _ => set_defining_grid true (set_grid_defined false (reset_grid s))
  end.

Definition reset_define_grid (s : state) : state :=
  set_defining_grid false (reset_grid s).

Definition toggle_define_grid_mode (s : state) : state :=
  if defining_grid s then reset_define_grid s
  else if grid_defined s then define_grid (reset_grid s)
  else define_grid s.

Definition on_mouse_press (scene_pos : vec) (s : state) : state :=
  if (List.length (corners s) <? 3)%nat && defining_grid s then
    let s := set_corners (corners s ++ [scene_pos]) s in
    let corner_ellipse :=
      {| rx := fst scene_pos - 5; ry := snd scene_pos - 5; rw := 10; rh := 10 |} in
    let s := set_corner_points (corner_points s ++ [corner_ellipse]) s in
    if (List.length (corners s) =? 3)%nat then
      draw_grid (draw_orientation_lines
        (set_defining_grid false (set_grid_defined true s)))
    else s
  else s.

Definition adjust_grid_spacing (direction : string) (value : Z) (s : state)
  : state :=
  let sp := grid_spacing s in
  let s :=
    if String.eqb direction "width" then
      set_grid_spacing (fst sp + value, 0)%Z s
    else if String.eqb direction "height" then
      set_grid_spacing (0, snd sp + value)%Z s
    else s in
  update_grid s.

Definition move_grid (dx dy : Z) (s : state) : state :=
  let o := grid_offset s in
  update_grid (set_grid_offset (fst o + dx, snd o + dy)%Z s).

(** ** Measurement *)

(** The window that [measure_grid] cuts out for one circle, lines
    806-813, flattened. *)
Definition roi_pixels (image : ndarray) (radius : Z) (circ : rect) : list Z :=
  let center := rect_center circ in
  let center_x := trunc (fst center) in
  let center_y := trunc (snd center) in
  let x_min := Z.max 0 (center_x - radius) in
  let x_max := Z.min (shape1 image) (center_x + radius) in
  let y_min := Z.max 0 (center_y - radius) in
  let y_max := Z.min (shape0 image) (center_y + radius) in
  ravel (slice2 image y_min y_max x_min x_max).

(** Line 817: [np.argmax(np.bincount(roi_pixels.ravel()))]. *)
Definition mode_statistic (roi : list Z) : res nat :=
  counts <- bincount roi ;;
  argmax counts.

(** The body of the loop of [measure_grid] for the [i]-th circle. *)
Definition measure_well (image : ndarray) (radius : Z) (C : nat)
           (i : nat) (circ : rect) : res measurement :=
  let center := rect_center circ in
  let center_x := trunc (fst center) in
  let center_y := trunc (snd center) in
  let roi := roi_pixels image radius circ in
  let mean_intensity := mean roi in
  let median_intensity := median roi in
  let variance := var roi in
  mode <- mode_statistic roi ;;
  min_intensity <- amin roi ;;
  max_intensity <- amax roi ;;
  median_int <- int_ median_intensity ;;
  Ret {| m_well := get_well_name (i / C) (i mod C);
         m_x_center := center_x;
         m_y_center := center_y;
         m_median := median_int;
         m_mean := mean_intensity;
         m_var := variance;
         m_mode := Z.of_nat mode;
         m_min := min_intensity;
         m_max := max_intensity |}.

(** The loop: the records appended so far, and the exception that
    stopped it, if any. *)
Fixpoint measure_loop (image : ndarray) (radius : Z) (C : nat) (i : nat)
         (circs : list rect) (acc : list measurement)
  : list measurement * option exn :=
  match circs with
  | [] => (acc, None)
  | circ :: rest =>
      match measure_well image radius C i circ with
      | Ret m => measure_loop image radius C (S i) rest (acc ++ [m])
      | Raise e => (acc, Some e)
      end
  end.

(** [measure_grid]: the state it leaves and the exception of the
    statistics that escapes from the slot, if any.  ([circ.rect()] on a
    deleted item raises RuntimeError before any statistic: see the
    conventions.) *)
Definition measure_grid (s : state) : state * option exn :=
  match current_image s, circles s with
  | None, _ | _, [] => (s, None)
  | Some image, circs =>
      let r := measure_loop image (roi_radius s) (ncols s) 0 circs [] in
      (set_measurements (fst r) s, snd r)
  end.

Definition reset_app (s : state) : state := init_variables.

(** ** The user interface as a state machine *)

Inductive event : Type :=
| LoadImage (m : Cv2.Mat)
| AdjustSaturation (value : Z)
| ToggleDefineGrid
| MousePress (scene_pos : vec)
| AdjustRoiRadius (value : Z)
| MoveGrid (dx dy : Z)
| AdjustGridSpacing (direction : string) (value : Z)
| SetSpacingIncrement (value : Z)
| MeasureGrid
| ResetApp.

Definition step (s : state) (e : event) : state :=
  match e with
  | LoadImage m => load_image m s
  | AdjustSaturation v => adjust_saturation v s
  | ToggleDefineGrid => toggle_define_grid_mode s
  | MousePress p => on_mouse_press p s
  | AdjustRoiRadius v => adjust_roi_radius v s
  | MoveGrid dx dy => move_grid dx dy s
  | AdjustGridSpacing d v => adjust_grid_spacing d v s
  | SetSpacingIncrement v => set_spacing_increment v s
  | MeasureGrid => fst (measure_grid s)
  | ResetApp => reset_app s
  end.

Definition run (s : state) (es : list event) : state := fold_left step es s.

End App.

(* ================================================================== *)
(** * Statements of the specification, written from its words          *)
(* ================================================================== *)

Module Spec.

Import App.


(** center(i, j) = origin + i (row_vector + (0, sy)) + j (col_vector + (sx, 0))
    with origin = corner0 + (dx, dy), row_vector = (corner2 - corner0) / (R - 1)
    and col_vector = (corner1 - corner0) / (C - 1), per coordinate. *)
Definition center (corner0 corner1 corner2 : vec) (R C : nat)
           (offset spacing : Z * Z) (i j : nat) : vec :=
  let '(x0, y0) := corner0 in
  let '(x1, y1) := corner1 in
  let '(x2, y2) := corner2 in
  let '(dx, dy) := offset in
  let '(sx, sy) := spacing in
  ( (x0 + inject_Z dx)
    + Qnat i * ((x2 - x0) / (Qnat R - 1) + 0)
    + Qnat j * ((x1 - x0) / (Qnat C - 1) + inject_Z sx),
    (y0 + inject_Z dy)
    + Qnat i * ((y2 - y0) / (Qnat R - 1) + inject_Z sy)
    + Qnat j * ((y1 - y0) / (Qnat C - 1) + 0) ).


(** At most one axis of the spacing adjustment is non-zero. *)
Definition spacing_exclusive (s : state) : Prop :=
  fst (grid_spacing s) = 0%Z \/ snd (grid_spacing s) = 0%Z.

(** Grid definition is never both in progress (Picking) and complete
    (Defined). *)
Definition modes_exclusive (s : state) : Prop :=
  defining_grid s = true -> grid_defined s = false.

(** Membership of pixel (x, y) in the square half-open window
    [cx - r, cx + r) x [cy - r, cy + r) clamped to a W x H image. *)
Definition in_window (cx cy r W H x y : Z) : bool :=
  ((cx - r <=? x) && (x <? cx + r) && (cy - r <=? y) && (y <? cy + r)
   && (0 <=? x) && (x <? W) && (0 <=? y) && (y <? H))%Z.

(** A list paired with the positions of its entries, counted from [k]. *)
Fixpoint indexed {A : Type} (k : Z) (l : list A) : list (Z * A) :=
  match l with
  | [] => []
  | a :: l' => (k, a) :: indexed (k + 1)%Z l'
  end.

(** The entry of a pair (position, entry) when the position lies in
    [lo, hi), and nothing otherwise. *)
Definition between {A : Type} (lo hi : Z) (xv : Z * A) : list A :=
  if ((lo <=? fst xv) && (fst xv <? hi))%Z then [snd xv] else [].

(** The samples of the clamped window, row by row. *)
Definition window_pixels (image : Np.ndarray) (cx cy r : Z) : list Z :=
  flat_map (fun yr =>
    flat_map (fun xv =>
      if in_window cx cy r (Np.shape1 image) (Np.shape0 image) (fst xv) (fst yr)
      then [snd xv] else [])
      (indexed 0 (snd yr)))
    (indexed 0 image).


(** The linear promotion of an 8-bit sample: v * 65535 / 255. *)
Definition promote8 (v : Z) : Z := (v * 65535 / 255)%Z.

End Spec.

(* ================================================================== *)
(** * Sessions and images used to exercise the model                   *)
(* ================================================================== *)

Module Fixtures.

Import App.

(** A [h] x [w] 16-bit image whose sample at (x, y) is [w * y + x]. *)
Definition ramp (h w : nat) : Np.ndarray :=
  map (fun y => map (fun x => Z.of_nat (w * y + x)) (seq 0 w)) (seq 0 h).

Definition ramp16 (h w : nat) : Cv2.Mat :=
  {| Cv2.depth := Cv2.uint16; Cv2.samples := ramp h w |}.

(** A constant [h] x [w] 16-bit image. *)
Definition flat16 (h w : nat) (v : Z) : Cv2.Mat :=
  {| Cv2.depth := Cv2.uint16; Cv2.samples := repeat (repeat v w) h |}.

(** An image is loaded, grid definition is on and one corner is picked. *)
Definition picking_one : state :=
  run init_variables
      [LoadImage (ramp16 20 20); ToggleDefineGrid; MousePress (3, 4)].

(** The same with two corners picked. *)
Definition picking_two : state :=
  run picking_one [MousePress (14, 4)].

(** A grid defined on a 20 x 20 image with wells 10 pixels apart. *)
Definition wide_grid : state :=
  run init_variables
      [LoadImage (ramp16 20 20); ToggleDefineGrid;
       MousePress (0, 5); MousePress (110, 5); MousePress (0, 75)].

(** A grid with wells 2 pixels apart horizontally and 1 vertically,
    moved 20 pixels to the left with the arrow button. *)
Definition shifted_grid : state :=
  run init_variables
      ([LoadImage (ramp16 20 20); ToggleDefineGrid;
        MousePress (0, 5); MousePress (22, 5); MousePress (0, 12)]
       ++ repeat (MoveGrid (-1) 0) 20).

End Fixtures.

(* ================================================================== *)
(** * The magnifier                                                    *)
(* ================================================================== *)

Module View.

Import Py.

(** [eventFilter], line 336: the cursor is over a pixel of the image. *)
Definition is_cursor_inframe (image : Np.ndarray) (x y : Z) : bool :=
  ((0 <=? x) && (x <? Np.shape1 image) && (0 <=? y) && (y <? Np.shape0 image))%Z.

(** [shape[0]] and [shape[1]] of the adjusted image. *)
Definition rows {A : Type} (a : list (list A)) : Z := Z.of_nat (length a).
Definition cols {A : Type} (a : list (list A)) : Z :=
  match a with
  | [] => 0%Z
  | r :: _ => Z.of_nat (length r)
  end.

Definition region_size : Z := 30.

(** [update_magnifier], lines 499-502: the part of the adjusted image
    around the cursor that is enlarged. *)
Definition magnifier_region {A : Type} (adjusted_image : list (list A))
           (x y : Z) : list (list A) :=
  let x_min := Z.max 0 (x - region_size) in
  let x_max := Z.min (cols adjusted_image) (x + region_size) in
  let y_min := Z.max 0 (y - region_size) in
  let y_max := Z.min (rows adjusted_image) (y + region_size) in
  map (fun r => slice r x_min x_max) (slice adjusted_image y_min y_max).

End View.

(* ================================================================== *)
(** * Predicates on states and arrays used by the properties below     *)
(* ================================================================== *)

Module Inv.

Import App.

(** Every row has the length of the first one. *)
Definition is_rectangular {A : Type} (a : list (list A)) : bool :=
  forallb (fun r => (Z.of_nat (length r) =? View.cols a)%Z) a.

(** Every sample is an unsigned 8-bit value. *)
Definition is_uint8 (a : Np.ndarray) : bool :=
  forallb (forallb (fun v => ((0 <=? v) && (v <=? 255))%Z)) a.

(** The marker that [on_mouse_press] draws for a picked corner. *)
Definition corner_marker (p : vec) : rect :=
  {| rx := fst p - 5; ry := snd p - 5; rw := 10; rh := 10 |}.

(** What the tracking lists hold when they are up to date with the
    corners and the grid parameters. *)
Definition expected_circles (s : state) : list rect :=
  map (fun c => ellipse_item c (inject_Z (roi_radius s))) (grid_centers s).

Definition expected_labels (s : state) : list string :=
  match corners s with
  | [_; _; _] =>
      map (fun ij => get_well_name (fst ij) (snd ij)) (cells (nrows s) (ncols s))
  | _ => []
  end.

Definition expected_lines (s : state) : list line :=
  match corners s with
  | [a1; a12; h1] => [ {| p1 := a1; p2 := a12 |}; {| p1 := a1; p2 := h1 |} ]
  | _ => []
  end.

Definition consistent (s : state) : Prop :=
  circles s = expected_circles s /\
  labels s = expected_labels s /\
  corner_lines s = expected_lines s /\
  corner_points s = map corner_marker (corners s).

(** The shape of the states that the user interface can reach. *)
Definition well_formed (s : state) : Prop :=
  (length (corners s) <= 3)%nat /\
  (grid_defined s = true <-> length (corners s) = 3%nat) /\
  (defining_grid s = true -> current_image s <> None) /\
  (current_image s = None -> corners s = []) /\
  nrows s = ROWS /\ ncols s = COLUMNS /\
  consistent s.

End Inv.

(* ================================================================== *)
(** * IEEE 754 binary64 arithmetic, round to nearest, ties to even      *)
(* ================================================================== *)

Module F64.

Import Py Np App.

(** [2 ^ e] *)
Definition pow2 (e : Z) : Q := Qpower 2 e.

(** The binary exponent of a positive rational: [2 ^ ilog2 q <= q <
    2 ^ (ilog2 q + 1)]. *)
Definition ilog2 (q : Q) : Z :=
  let e := (Z.log2 (Qnum q) - Z.log2 (Zpos (Qden q)))%Z in
  if Qle_bool (pow2 e) q then e else (e - 1)%Z.

(** The nearest integer, ties to the even one. *)
Definition rint (q : Q) : Z :=
  let f := Qfloor q in
  match Qcompare (q - inject_Z f) (1 # 2) with
  | Lt => f
  | Gt => (f + 1)%Z
  | Eq => if Z.even f then f else (f + 1)%Z
  end.

(** The exponent of the unit in the last place of the binade of [q > 0]:
    53 significant bits, subnormal below [2 ^ -1022]. *)
Definition ulp_exponent (q : Q) : Z := Z.max (ilog2 q - 52) (-1074).

(** The multiple of the unit in the last place nearest to [q > 0]. *)
Definition round_pos (q : Q) : Q :=
  let u := ulp_exponent q in
  inject_Z (rint (q / pow2 u)) * pow2 u.

(** Rounding of a real result to a binary64 value, the exponent range
    unbounded above.  The value is kept in lowest terms. *)
Definition round (q : Q) : Q :=
  let q := Qred q in
  Qred (match Qcompare q 0 with
        | Eq => 0
        | Gt => round_pos q
        | Lt => - round_pos (- q)
        end).


(** The result of an operation whose exact value is [q]: rounded, and
    infinite when the rounded value leaves the exponent range. *)
Definition fin (q : Q) : float64 :=
  let r := round q in
  if Qle_bool (pow2 1024) r then PInf
  else if Qle_bool r (- pow2 1024) then NInf
  else Fin r.

(** Conversion of a Python [int] or of an integer sample. *)
Definition of_Z (z : Z) : float64 := fin (inject_Z z).

Definition add (a b : float64) : float64 :=
  match a, b with
  | NaN, _ | _, NaN => NaN
  | Fin x, Fin y => fin (x + y)
  | PInf, NInf | NInf, PInf => NaN
  | PInf, _ | _, PInf => PInf
  | NInf, _ | _, NInf => NInf
  end.

Definition sub (a b : float64) : float64 :=
  match a, b with
  | NaN, _ | _, NaN => NaN
  | Fin x, Fin y => fin (x - y)
  | Fin _, PInf => NInf
  | Fin _, NInf => PInf
  | PInf, PInf => NaN
  | PInf, _ => PInf
  | NInf, NInf => NaN
  | NInf, _ => NInf
  end.

Definition mul (a b : float64) : float64 :=
  match a, b with
  | NaN, _ | _, NaN => NaN
  | Fin x, Fin y => fin (x * y)
  | Fin x, PInf | PInf, Fin x =>
      if Qeq_bool x 0 then NaN else signed_inf (Qltb 0 x)
  | Fin x, NInf | NInf, Fin x =>
      if Qeq_bool x 0 then NaN else signed_inf (Qltb x 0)
  | PInf, PInf | NInf, NInf => PInf
  | PInf, NInf | NInf, PInf => NInf
  end.

(** Division; a zero divisor stands for [+0.0], as in [Np.fdiv]. *)
Definition div (a b : float64) : float64 :=
  match a, b with
  | NaN, _ | _, NaN => NaN
  | Fin x, Fin y =>
      if Qeq_bool y 0
      then (if Qeq_bool x 0 then NaN else signed_inf (Qltb 0 x))
      else fin (x / y)
  | Fin _, _ => Fin 0
  | PInf, Fin y => signed_inf (Qle_bool 0 y)
  | NInf, Fin y => signed_inf (Qltb y 0)
  | _, _ => NaN
  end.

(** [a >= b]; false on nan. *)
Definition ge (a b : float64) : bool :=
  match a, b with
  | NaN, _ | _, NaN => false
  | Fin x, Fin y => Qle_bool y x
  | PInf, _ | _, NInf => true
  | _, _ => false
  end.

(** ** The grid of [draw_grid], lines 748-765 *)

Definition fvec : Type := (float64 * float64)%type.

Definition vadd (a b : fvec) : fvec := (add (fst a) (fst b), add (snd a) (snd b)).
Definition vsub (a b : fvec) : fvec := (sub (fst a) (fst b), sub (snd a) (snd b)).
Definition vscale (k : float64) (a : fvec) : fvec := (mul k (fst a), mul k (snd a)).
Definition vdiv (a : fvec) (k : float64) : fvec := (div (fst a) k, div (snd a) k).

(** [np.array(p)] of a pair of coordinates, and of a pair of [int]s. *)
Definition array (p : vec) : fvec := (fin (fst p), fin (snd p)).
Definition arrayZ (o : Z * Z) : fvec := (of_Z (fst o), of_Z (snd o)).

(** Line 765: [a1 + i * (row_vec + [0, sy]) + j * (col_vec + [sx, 0])],
    every operation rounded, in the order Python evaluates them. *)
Definition grid_center (a1 row_vec col_vec : fvec) (spacing : Z * Z)
           (i j : nat) : fvec :=
  vadd (vadd a1 (vscale (of_Z (Z.of_nat i))
                        (vadd row_vec (arrayZ (0%Z, snd spacing)))))
       (vscale (of_Z (Z.of_nat j))
               (vadd col_vec (arrayZ (fst spacing, 0%Z)))).

(** The centers computed by [draw_grid], in loop order. *)
Definition grid_centers (s : state) : list fvec :=
  match corners s with
  | [c0; c1; c2] =>
      let a1 := array c0 in
      let a12 := array c1 in
      let h1 := array c2 in
      let row_vec := vdiv (vsub h1 a1) (of_Z (Z.of_nat (nrows s) - 1)) in
      let col_vec := vdiv (vsub a12 a1) (of_Z (Z.of_nat (ncols s) - 1)) in
      let a1 := vadd a1 (arrayZ (grid_offset s)) in
      map (fun ij => grid_center a1 row_vec col_vec (grid_spacing s)
                                 (fst ij) (snd ij))
          (cells (nrows s) (ncols s))
  | _ => []
  end.



(** ** [np.percentile] on integer samples, as numpy (1.22 and later)
       evaluates it: [_quantile], [_get_indexes], [_get_gamma], [_lerp] *)

(** [_lerp(a, b, t)]: [a + (b - a) * t], and [b - (b - a) * (1 - t)]
    where [t >= 0.5].  The difference of the two samples is taken in
    their own type, [uint16]. *)
Definition lerp (a b : Z) (t : float64) : float64 :=
  let diff_b_a := of_Z ((b - a) mod 65536) in
  if ge t (Fin (1 # 2))
  then sub (of_Z b) (mul diff_b_a (sub (Fin 1) t))
  else add (of_Z a) (mul diff_b_a t).

(** [_quantile] with the linear method on the ascending samples [s]
    (the head [s0] serves as the default of [nth]): the virtual index
    [(n - 1) * quantile], its two neighbours ([_get_indexes]: both are the
    last sample when the index reaches it) and the interpolation. *)
Definition linear_quantile (s : list Z) (s0 : Z) (quantile : float64) : float64 :=
  let n := Z.of_nat (length s) in
  let virtual_index := mul (of_Z (n - 1)) quantile in
  match virtual_index with
  | Fin vi =>
      if ge virtual_index (of_Z (n - 1)) then
        let last := nth (Z.to_nat (n - 1)) s s0 in
        lerp last last (sub virtual_index (of_Z (-1)))
      else if Qltb vi 0 then
        lerp s0 s0 (sub virtual_index (of_Z 0))
      else
        let previous := Qfloor vi in
        lerp (nth (Z.to_nat previous) s s0)
             (nth (Z.to_nat (previous + 1)) s s0)
             (sub virtual_index (of_Z previous))
  | _ => NaN
  end.

(** [np.percentile(a, q)]: [q / 100] must lie in [0, 1].  The program
    never passes an empty array; it is given nan as in [Np.percentile]. *)
Definition percentile (a : list Z) (q : float64) : res float64 :=
  let quantile := div q (Fin 100) in
  if negb (ge quantile (Fin 0) && ge (Fin 1) quantile) then Raise ValueError
  else
    match sort a with
    | [] => Ret NaN
    | (s0 :: _) as s => Ret (linear_quantile s s0 quantile)
    end.

(** ** [adjust_image], lines 461-465 *)

Definition adjust_image_float (f : Q) (image : ndarray)
  : res (list (list float64)) :=
  let q := sub (of_Z 100) (mul (fin f) (of_Z 100)) in
  v_min <- percentile (ravel image) (of_Z 0) ;;
  v_max <- percentile (ravel image) q ;;
  Ret (map (map (fun v =>
         clip (div (mul (sub (of_Z v) v_min) (Fin MAXINT16))
                   (sub v_max v_min))
              0 MAXINT16)) image).

Definition adjust_image (s : state) (image : ndarray)
  : res (list (list (option Z))) :=
  a <- adjust_image_float (saturation_fraction s) image ;;
  Ret (map (map astype_uint16) a).

End F64.

(* ================================================================== *)
(** * Sessions on which rounding shows                                  *)
(* ================================================================== *)

Module F64Fixtures.

Import App.



End F64Fixtures.

(* ================================================================== *)
(** * Frame properties of the grid operations                          *)
(* ================================================================== *)

Import Py Np App.

Unset Implicit Arguments.

(** Case analysis on every test and pattern match that a goal still
    contains, simplifying in between. *)
Ltac proj_simpl :=
  cbn [set_images set_current_image set_roi_radius set_grid_offset
       set_grid_spacing set_corners set_corner_points set_corner_lines
       set_circles set_labels set_measurements set_saturation_fraction
       set_defining_grid set_grid_defined set_spacing_increment
       images current_image roi_radius nrows ncols grid_offset grid_spacing
       corners corner_points corner_lines circles labels measurements
       saturation_fraction defining_grid grid_defined spacing_increment
       init_variables fst snd] in *.

Ltac split_cases :=
  repeat (proj_simpl;
          match goal with
          | |- context [match ?x with _ => _ end] =>
              lazymatch x with
              | context [match _ with _ => _ end] => fail
              | _ => destruct x eqn:?
              end
          end);
  proj_simpl.

Ltac frame :=
  intros;
  unfold update_image, update_grid, reset_grid, remove_grid, draw_grid,
    draw_orientation_lines, erase_grid;
  split_cases; congruence.

Section Frames.

Variable s : state.

Lemma draw_orientation_lines_corners :
  corners (draw_orientation_lines s) = corners s.
Proof. frame. Qed.

Lemma draw_orientation_lines_spacing :
  grid_spacing (draw_orientation_lines s) = grid_spacing s.
Proof. frame. Qed.

Lemma update_grid_spacing : grid_spacing (update_grid s) = grid_spacing s.
Proof. frame. Qed.

Lemma update_grid_offset : grid_offset (update_grid s) = grid_offset s.
Proof. frame. Qed.

Lemma update_grid_corners : corners (update_grid s) = corners s.
Proof. frame. Qed.

Lemma update_grid_modes :
  defining_grid (update_grid s) = defining_grid s /\
  grid_defined (update_grid s) = grid_defined s.
Proof. split; frame. Qed.

Lemma update_image_spacing : grid_spacing (update_image s) = grid_spacing s.
Proof. frame. Qed.

Lemma update_image_offset : grid_offset (update_image s) = grid_offset s.
Proof. frame. Qed.

Lemma update_image_modes :
  defining_grid (update_image s) = defining_grid s /\
  grid_defined (update_image s) = grid_defined s.
Proof. split; frame. Qed.

Lemma reset_grid_spacing : grid_spacing (reset_grid s) = grid_spacing s.
Proof. frame. Qed.

Lemma reset_grid_offset : grid_offset (reset_grid s) = grid_offset s.
Proof. frame. Qed.

Lemma reset_grid_image : current_image (reset_grid s) = current_image s.
Proof. frame. Qed.

Lemma define_grid_spacing : grid_spacing (define_grid s) = grid_spacing s.
Proof. unfold define_grid. frame. Qed.

Lemma define_grid_offset : grid_offset (define_grid s) = grid_offset s.
Proof. unfold define_grid. frame. Qed.

Lemma toggle_spacing :
  grid_spacing (toggle_define_grid_mode s) = grid_spacing s.
Proof. unfold toggle_define_grid_mode, reset_define_grid, define_grid. frame. Qed.

Lemma toggle_offset :
  grid_offset (toggle_define_grid_mode s) = grid_offset s.
Proof. unfold toggle_define_grid_mode, reset_define_grid, define_grid. frame. Qed.

Lemma on_mouse_press_spacing (p : vec) :
  grid_spacing (on_mouse_press p s) = grid_spacing s.
Proof. unfold on_mouse_press. frame. Qed.

Lemma on_mouse_press_offset (p : vec) :
  grid_offset (on_mouse_press p s) = grid_offset s.
Proof. unfold on_mouse_press. frame. Qed.

Lemma load_image_spacing (m : Cv2.Mat) :
  grid_spacing (load_image m s) = grid_spacing s.
Proof. unfold load_image, show_image. frame. Qed.

Lemma measure_grid_spacing :
  grid_spacing (fst (measure_grid s)) = grid_spacing s.
Proof. unfold measure_grid. frame. Qed.

Lemma move_grid_spacing (dx dy : Z) :
  grid_spacing (move_grid dx dy s) = grid_spacing s.
Proof. unfold move_grid. frame. Qed.

End Frames.

Lemma adjust_grid_spacing_width (s : state) (d : Z) :
  grid_spacing (adjust_grid_spacing "width" d s)
  = (fst (grid_spacing s) + d, 0)%Z.
Proof.
  unfold adjust_grid_spacing. rewrite String.eqb_refl.
  now rewrite update_grid_spacing.
Qed.

Lemma adjust_grid_spacing_height (s : state) (d : Z) :
  grid_spacing (adjust_grid_spacing "height" d s)
  = (0, snd (grid_spacing s) + d)%Z.
Proof.
  unfold adjust_grid_spacing.
  change (String.eqb "height" "width") with false.
  rewrite String.eqb_refl. now rewrite update_grid_spacing.
Qed.

Lemma adjust_grid_spacing_other (s : state) (dir : string) (d : Z) :
  String.eqb dir "width" = false -> String.eqb dir "height" = false ->
  grid_spacing (adjust_grid_spacing dir d s) = grid_spacing s.
Proof.
  intros Hw Hh. unfold adjust_grid_spacing. rewrite Hw, Hh.
  apply update_grid_spacing.
Qed.

(* ================================================================== *)
(** * Invariants of the reachable states                               *)
(* ================================================================== *)

Ltac unfold_ops :=
  unfold step, load_image, show_image, adjust_saturation, adjust_roi_radius,
    toggle_define_grid_mode, reset_define_grid, define_grid, on_mouse_press,
    move_grid, adjust_grid_spacing, measure_grid, reset_app,
    update_image, update_grid, reset_grid, remove_grid, draw_grid,
    draw_orientation_lines, erase_grid in *.

Lemma step_modes_exclusive (s : state) (e : event) :
  Spec.modes_exclusive s -> Spec.modes_exclusive (step s e).
Proof.
  unfold Spec.modes_exclusive. intros H.
  destruct e; unfold_ops; split_cases; intros; try congruence; auto.
Qed.

Lemma step_spacing_exclusive (s : state) (e : event) :
  Spec.spacing_exclusive s -> Spec.spacing_exclusive (step s e).
Proof.
  unfold Spec.spacing_exclusive. intros H.
  destruct e; cbn [step].
  - now rewrite load_image_spacing.
  - unfold adjust_saturation. rewrite update_image_spacing. exact H.
  - now rewrite toggle_spacing.
  - now rewrite on_mouse_press_spacing.
  - unfold adjust_roi_radius. rewrite update_grid_spacing. exact H.
  - now rewrite move_grid_spacing.
  - destruct (String.eqb direction "width") eqn:Hw.
    + apply String.eqb_eq in Hw; subst.
      rewrite adjust_grid_spacing_width. now right.
    + destruct (String.eqb direction "height") eqn:Hh.
      * apply String.eqb_eq in Hh; subst.
        rewrite adjust_grid_spacing_height. now left.
      * now rewrite adjust_grid_spacing_other.
  - exact H.
  - now rewrite measure_grid_spacing.
  - now left.
Qed.

Lemma step_dimensions (s : state) (e : event) :
  nrows s = ROWS /\ ncols s = COLUMNS ->
  nrows (step s e) = ROWS /\ ncols (step s e) = COLUMNS.
Proof.
  intros [Hr Hc].
  destruct e; unfold_ops; split_cases; auto.
Qed.

Lemma run_invariant (P : state -> Prop) :
  (forall s e, P s -> P (step s e)) ->
  forall es s, P s -> P (run s es).
Proof.
  intros Hstep es. induction es as [|e es IH]; intros s Hs; cbn.
  - exact Hs.
  - apply IH, Hstep, Hs.
Qed.

Lemma reachable_modes_exclusive (es : list event) :
  Spec.modes_exclusive (run init_variables es).
Proof.
  apply run_invariant.
  - apply step_modes_exclusive.
  - intros H; discriminate H.
Qed.

Lemma reachable_dimensions (es : list event) :
  nrows (run init_variables es) = ROWS /\ ncols (run init_variables es) = COLUMNS.
Proof. apply run_invariant; [apply step_dimensions | now split]. Qed.

(** ** Spacing adjustment *)

(** C9: adjusting the width adds the delta to sx and sets sy to zero,
    adjusting the height adds the delta to sy and sets sx to zero, and
    after every finite sequence of [adjust_grid_spacing] calls on a fresh
    session (indeed after every sequence of user actions) at most one of
    sx, sy is non-zero. *)
Theorem C9_spacing_mutually_exclusive :
  (forall s d, grid_spacing (adjust_grid_spacing "width" d s)
               = (fst (grid_spacing s) + d, 0)%Z) /\
  (forall s d, grid_spacing (adjust_grid_spacing "height" d s)
               = (0, snd (grid_spacing s) + d)%Z) /\
  (forall calls : list (string * Z),
      Spec.spacing_exclusive
        (fold_left (fun s c => adjust_grid_spacing (fst c) (snd c) s)
                   calls init_variables)) /\
  (forall es : list event, Spec.spacing_exclusive (run init_variables es)).
Proof.
  split; [exact adjust_grid_spacing_width|].
  split; [exact adjust_grid_spacing_height|].
  assert (Hrun : forall es, Spec.spacing_exclusive (run init_variables es)).
  { intros es. apply run_invariant.
    - apply step_spacing_exclusive.
    - now left. }
  split; [|exact Hrun].
  intros calls.
  specialize (Hrun (map (fun c => AdjustGridSpacing (fst c) (snd c)) calls)).
  unfold run in Hrun. revert Hrun. generalize init_variables.
  induction calls as [|c calls IH]; intros s0 H; cbn in *; [exact H|].
  apply IH, H.
Qed.

(** ** Cancelling and restarting grid definition *)

(** While corners are being picked, [reset_grid] finds [grid_defined]
    false and removes nothing: the toggle leaves the corners in place. *)
Lemma cancel_keeps_corners (s : state) :
  defining_grid s = true -> grid_defined s = false ->
  corners (toggle_define_grid_mode s) = corners s /\
  corner_points (toggle_define_grid_mode s) = corner_points s /\
  defining_grid (toggle_define_grid_mode s) = false.
Proof.
  intros Hd Hg.
  unfold toggle_define_grid_mode, reset_define_grid, reset_grid.
  rewrite Hd, Hg. repeat split.
Qed.

(** Starting from a state with no grid defined does not touch the
    corners either. *)
Lemma start_keeps_corners (s : state) :
  defining_grid s = false -> grid_defined s = false ->
  corners (toggle_define_grid_mode s) = corners s.
Proof.
  intros Hd Hg.
  unfold toggle_define_grid_mode, define_grid, reset_grid.
  rewrite Hd, Hg. destruct (current_image s); reflexivity.
Qed.

(** Redefinition from a defined grid clears the corners and the tracked
    grid items, and leaves offset and spacing alone. *)
Lemma redefine_clears_grid (s : state) :
  defining_grid s = false -> grid_defined s = true ->
  let s' := toggle_define_grid_mode s in
  corners s' = [] /\ circles s' = [] /\ labels s' = [] /\
  corner_lines s' = [] /\ corner_points s' = [] /\
  grid_offset s' = grid_offset s /\ grid_spacing s' = grid_spacing s.
Proof.
  intros Hd Hg.
  unfold toggle_define_grid_mode, define_grid, reset_grid.
  rewrite Hd, Hg. unfold remove_grid, erase_grid.
  split_cases; repeat split.
Qed.

(** In every state the program reaches with grid definition on, the
    [reset_grid] call of the cancel path is therefore without effect on
    the corners. *)
Lemma reachable_cancel_keeps_corners (es : list event) :
  let s := run init_variables es in
  defining_grid s = true ->
  corners (toggle_define_grid_mode s) = corners s.
Proof.
  intros s Hd.
  apply (cancel_keeps_corners s Hd (reachable_modes_exclusive es Hd)).
Qed.

(** The full reset restores offset and spacing. *)
Lemma reset_app_offset_spacing (s : state) :
  grid_offset (reset_app s) = (0, 0)%Z /\ grid_spacing (reset_app s) = (0, 0)%Z.
Proof. split; reflexivity. Qed.

(** C5 (the code departs from it): with one or with two corners picked,
    toggling grid definition off leaves [defining_grid] false and the
    picked corners, with their markers, still stored. *)
Theorem C5_cancel_keeps_partial_corners :
  (defining_grid Fixtures.picking_one = true /\
   corners Fixtures.picking_one = [(3, 4)] /\
   let s' := toggle_define_grid_mode Fixtures.picking_one in
   defining_grid s' = false /\ grid_defined s' = false /\
   corners s' = [(3, 4)] /\ List.length (corner_points s') = 1%nat) /\
  (defining_grid Fixtures.picking_two = true /\
   corners Fixtures.picking_two = [(3, 4); (14, 4)] /\
   let s' := toggle_define_grid_mode Fixtures.picking_two in
   defining_grid s' = false /\ grid_defined s' = false /\
   corners s' = [(3, 4); (14, 4)] /\ List.length (corner_points s') = 2%nat).
Proof. vm_compute. repeat split. Qed.

(** C10 (the code departs from it after a cancel): offset and spacing
    survive a restart of grid definition, but so do the corners that a
    cancelled definition left behind; one further click then completes a
    grid from the two stale corners. *)
Theorem C10_restart_after_cancel_keeps_corners :
  let cancelled :=
    run Fixtures.picking_two [MoveGrid 1 0; MoveGrid 1 0; ToggleDefineGrid] in
  let restarted := toggle_define_grid_mode cancelled in
  defining_grid cancelled = false /\ grid_defined cancelled = false /\
  defining_grid restarted = true /\
  corners restarted = [(3, 4); (14, 4)] /\
  grid_offset restarted = (2, 0)%Z /\
  let clicked := on_mouse_press (3, 11) restarted in
  grid_defined clicked = true /\
  corners clicked = [(3, 4); (14, 4); (3, 11)] /\
  List.length (circles clicked) = 96%nat.
Proof. vm_compute. repeat split. Qed.

(* ================================================================== *)
(** * Image loading and contrast adjustment at particular inputs       *)
(* ================================================================== *)

(** [convertScaleAbs] with alpha = 65535 / 255 sends every non-zero 8-bit
    sample to 255: the product 257 v is cut back to 8 bits. *)
Lemma convertScaleAbs_saturates (v : Z) :
  (1 <= v <= 255)%Z ->
  Cv2.convertScaleAbs1 (MAXINT16 / MAXINT8) 0 v = 255%Z.
Proof.
  intros Hv.
  assert (Hall : forallb
            (fun n => (Cv2.convertScaleAbs1 (MAXINT16 / MAXINT8) 0
                         (Z.of_nat n) =? 255)%Z)
            (seq 1 255) = true) by (vm_compute; reflexivity).
  rewrite forallb_forall in Hall.
  specialize (Hall (Z.to_nat v)).
  rewrite Z2Nat.id in Hall by lia.
  apply Z.eqb_eq, Hall, in_seq. lia.
Qed.

(** C4 (the code departs from it): an 8-bit image with samples 0, 1, 128
    and 255 enters the session as 0, 255, 255, 255, where the linear
    promotion gives 0, 257, 32896, 65535. *)
Theorem C4_eight_bit_promotion_saturates :
  promote {| Cv2.depth := Cv2.uint8; Cv2.samples := [[0; 1; 128; 255]%Z] |}
  = [[0; 255; 255; 255]%Z] /\
  map Spec.promote8 [0; 1; 128; 255]%Z = [0; 257; 32896; 65535]%Z.
Proof. split; vm_compute; reflexivity. Qed.

(** C3 (the code departs from it): on the constant 100 x 100 image of
    value 1000 with the default saturation, both percentiles are 1000,
    the quotient is 0/0 at every position, and the cast to 16 bits is
    left unspecified everywhere; on the image [0, 10] with saturation
    fraction 1 the first sample is nan and the second is clipped from
    +inf to 65535, so the output is not constant either. *)
Theorem C3_equal_percentiles_divide_by_zero :
  let image := Cv2.samples (Fixtures.flat16 100 100 1000) in
  (exists v_min v_max,
      percentile (ravel image) 0 = Ret (Fin v_min) /\
      percentile (ravel image) (100 - SATURATION * 100) = Ret (Fin v_max) /\
      v_max == v_min) /\
  adjust_image_float SATURATION image = Ret (repeat (repeat NaN 100) 100) /\
  adjust_image init_variables image = Ret (repeat (repeat None 100) 100) /\
  adjust_image_float 1 [[0; 10]%Z] = Ret [[NaN; Fin 65535]].
Proof.
  cbv zeta. split.
  - eexists; eexists. split; [vm_compute; reflexivity|].
    split; [vm_compute; reflexivity|]. vm_compute; reflexivity.
  - repeat split; vm_compute; reflexivity.
Qed.

(* ================================================================== *)
(** * The mode of a window                                             *)
(* ================================================================== *)

Section Mode.

Local Open Scope nat_scope.

Lemma argmax_from_spec (c : list nat) :
  forall (pre : list nat) (bi bv : nat),
    bi < List.length pre -> nth bi pre 0 = bv ->
    (forall k, k < List.length pre -> nth k pre 0 <= bv) ->
    (forall k, k < bi -> nth k pre 0 < bv) ->
    let r := argmax_from bi bv (List.length pre) c in
    let t := pre ++ c in
    r < List.length t /\
    (forall k, k < List.length t -> nth k t 0 <= nth r t 0) /\
    (forall k, k < r -> nth k t 0 < nth r t 0).
Proof.
  induction c as [|x c IH]; intros pre bi bv Hbi Hbv Hmax Hfirst; cbn zeta.
  - cbn [argmax_from]. rewrite app_nil_r. subst bv. auto.
  - cbn [argmax_from].
    replace (pre ++ x :: c) with ((pre ++ [x]) ++ c)
      by (rewrite <- app_assoc; reflexivity).
    replace (S (List.length pre)) with (List.length (pre ++ [x]))
      by (rewrite length_app; cbn; lia).
    assert (Hx : nth (List.length pre) (pre ++ [x]) 0 = x)
      by (rewrite app_nth2, Nat.sub_diag by lia; reflexivity).
    assert (Hold : forall k, k < List.length pre ->
                             nth k (pre ++ [x]) 0 = nth k pre 0)
      by (intros k Hk; now rewrite app_nth1).
    assert (Hlen : List.length (pre ++ [x]) = S (List.length pre))
      by (rewrite length_app; cbn; lia).
    destruct (bv <? x) eqn:Hlt.
    + apply Nat.ltb_lt in Hlt.
      replace (List.length pre) with (List.length (pre ++ [x]) - 1) at 1 by lia.
      rewrite Hlen at 1. replace (S (List.length pre) - 1) with (List.length pre) by lia.
      apply IH.
      * lia.
      * exact Hx.
      * intros k Hk. rewrite Hlen in Hk.
        destruct (Nat.eq_dec k (List.length pre)) as [->|Hne].
        -- rewrite Hx. lia.
        -- rewrite Hold by lia. specialize (Hmax k). lia.
      * intros k Hk. rewrite Hold by lia. specialize (Hmax k). lia.
    + apply Nat.ltb_ge in Hlt.
      apply IH.
      * lia.
      * rewrite Hold by lia. exact Hbv.
      * intros k Hk. rewrite Hlen in Hk.
        destruct (Nat.eq_dec k (List.length pre)) as [->|Hne].
        -- rewrite Hx. lia.
        -- rewrite Hold by lia. apply Hmax. lia.
      * intros k Hk. rewrite Hold by lia. now apply Hfirst.
Qed.

Lemma maximum_ge (l : list Z) : forall x v,
  In v (x :: l) -> (v <= maximum x l)%Z.
Proof.
  unfold maximum.
  induction l as [|y l IH]; intros x v Hin; cbn.
  - destruct Hin as [H|[]]. lia.
  - pose proof (IH (Z.max x y) (Z.max x y) (or_introl eq_refl)) as Hself.
    destruct Hin as [H|[H|H]]; [lia|lia|].
    apply IH. now right.
Qed.

Lemma minimum_le (l : list Z) : forall x v,
  In v (x :: l) -> (minimum x l <= v)%Z.
Proof.
  unfold minimum.
  induction l as [|y l IH]; intros x v Hin; cbn.
  - destruct Hin as [H|[]]. lia.
  - pose proof (IH (Z.min x y) (Z.min x y) (or_introl eq_refl)) as Hself.
    destruct Hin as [H|[H|H]]; [lia|lia|].
    apply IH. now right.
Qed.

(** The frequency table holds the count of [k] at index [k]. *)
Lemma bincount_table (l : list Z) (x : Z) (l' : list Z) :
  l = x :: l' -> (forall v, In v l -> (0 <= v)%Z) ->
  exists t,
    bincount l = Ret t /\
    List.length t = Z.to_nat (maximum x l') + 1 /\
    (forall k, k < List.length t -> nth k t 0 = count (Z.of_nat k) l).
Proof.
  intros -> Hpos.
  unfold bincount.
  destruct (existsb (fun v => (v <? 0)%Z) (x :: l')) eqn:Hneg.
  - apply existsb_exists in Hneg. destruct Hneg as [v [Hin Hv]].
    apply Z.ltb_lt in Hv. specialize (Hpos v Hin). lia.
  - eexists. split; [reflexivity|]. split.
    + now rewrite length_map, length_seq.
    + intros k Hk. rewrite length_map, length_seq in Hk.
      rewrite nth_indep with (d' := count (Z.of_nat 0) (x :: l'))
        by (now rewrite length_map, length_seq).
      rewrite map_nth with (f := fun v => count (Z.of_nat v) (x :: l')).
      now rewrite seq_nth.
Qed.

(** Line 817 returns the smallest of the most frequent values. *)
Lemma mode_statistic_spec (l : list Z) :
  l <> [] -> (forall v, In v l -> (0 <= v)%Z) ->
  exists m : nat,
    mode_statistic l = Ret m /\
    In (Z.of_nat m) l /\
    (forall v, count v l <= count (Z.of_nat m) l) /\
    (forall v, count v l = count (Z.of_nat m) l -> (Z.of_nat m <= v)%Z).
Proof.
  intros Hne Hpos.
  destruct l as [|x l']; [congruence|].
  destruct (bincount_table _ _ _ eq_refl Hpos) as [t [Hbin [Hlen Hnth]]].
  unfold mode_statistic. rewrite Hbin. cbn [bind].
  destruct t as [|t0 t']; [cbn in Hlen; lia|].
  cbn [argmax].
  pose proof (@argmax_from_spec t' [t0] 0 t0) as Hspec.
  cbn [List.length app] in Hspec.
  destruct Hspec as [Hr [Hmax Hfirst]]; auto.
  { intros k Hk. replace k with 0 by lia. cbn. lia. }
  { intros k Hk. lia. }
  set (r := argmax_from 0 t0 1 t') in *.
  assert (Hcount : forall v, In v (x :: l') ->
             Z.to_nat v < List.length (t0 :: t') /\
             nth (Z.to_nat v) (t0 :: t') 0 = count v (x :: l')).
  { intros v Hin.
    pose proof (Hpos v Hin). pose proof (@maximum_ge l' x v Hin).
    assert (Hk : Z.to_nat v < List.length (t0 :: t')) by (rewrite Hlen; lia).
    split; [exact Hk|]. rewrite Hnth by exact Hk. now rewrite Z2Nat.id. }
  assert (Hge : forall v, count v (x :: l') <= count (Z.of_nat r) (x :: l')).
  { intros v. rewrite <- (Hnth r) by exact Hr.
    destruct (in_dec Z.eq_dec v (x :: l')) as [Hin|Hout].
    - destruct (Hcount v Hin) as [Hk <-]. now apply Hmax.
    - unfold count. rewrite (proj1 (count_occ_not_In Z.eq_dec _ _) Hout). lia. }
  assert (Hposc : count x (x :: l') > 0)
    by (apply count_occ_In; now left).
  exists r. split; [reflexivity|]. split; [|split].
  - apply (count_occ_In Z.eq_dec). specialize (Hge x). unfold count in *. lia.
  - exact Hge.
  - intros v Hv.
    assert (Hin : In v (x :: l')).
    { apply (count_occ_In Z.eq_dec). specialize (Hge x). unfold count in *. lia. }
    destruct (Hcount v Hin) as [Hk Hnv].
    destruct (Nat.lt_ge_cases (Z.to_nat v) r) as [Hlt|Hge'].
    + specialize (Hfirst _ Hlt). rewrite Hnv, (Hnth r Hr) in Hfirst. lia.
    + pose proof (Hpos v Hin). lia.
Qed.

End Mode.

(* ================================================================== *)
(** * The measurement pass                                             *)
(* ================================================================== *)

Lemma slice_incl {A : Type} (l : list A) (start stop : Z) (x : A) :
  In x (slice l start stop) -> In x l.
Proof.
  unfold slice. intros H.
  set (lo := Z.to_nat (slice_index (Z.of_nat (List.length l)) start)) in *.
  set (k := Z.to_nat _) in H.
  rewrite <- (firstn_skipn lo l). apply in_or_app. right.
  rewrite <- (firstn_skipn k (skipn lo l)). apply in_or_app. now left.
Qed.

Lemma roi_pixels_in_image (image : ndarray) (radius : Z) (circ : rect) (v : Z) :
  In v (roi_pixels image radius circ) -> exists r, In r image /\ In v r.
Proof.
  unfold roi_pixels, ravel, slice2. intros H.
  apply in_concat in H. destruct H as [w [Hw Hv]].
  apply in_map_iff in Hw. destruct Hw as [r [<- Hr]].
  exists r. split; eauto using slice_incl.
Qed.

Lemma roi_pixels_uint16 (image : ndarray) (radius : Z) (circ : rect) (v : Z) :
  is_uint16 image = true ->
  In v (roi_pixels image radius circ) -> (0 <= v <= 65535)%Z.
Proof.
  intros Hu Hv. apply roi_pixels_in_image in Hv. destruct Hv as [r [Hr Hv]].
  unfold is_uint16 in Hu. rewrite forallb_forall in Hu.
  specialize (Hu r Hr). rewrite forallb_forall in Hu. specialize (Hu v Hv).
  apply andb_true_iff in Hu. destruct Hu as [H0 H1].
  apply Z.leb_le in H0, H1. lia.
Qed.

Lemma insert_length (x : Z) (l : list Z) :
  List.length (insert x l) = S (List.length l).
Proof.
  induction l as [|y l IH]; cbn; [reflexivity|].
  destruct (x <=? y)%Z; cbn; [reflexivity|now rewrite IH].
Qed.

Lemma sort_length (l : list Z) : List.length (sort l) = List.length l.
Proof.
  induction l as [|x l IH]; cbn; [reflexivity|].
  now rewrite insert_length, IH.
Qed.

Lemma median_finite (l : list Z) : l <> [] -> exists q, median l = Fin q.
Proof.
  intros Hne. unfold median.
  destruct (sort l) as [|s0 s'] eqn:Hs.
  - apply (f_equal (@List.length Z)) in Hs. rewrite sort_length in Hs.
    destruct l; [congruence|discriminate].
  - destruct (Nat.even _); eexists; reflexivity.
Qed.

(** On a non-empty window of unsigned samples the loop body returns a
    record, whose mode is the one of line 817. *)
Lemma measure_well_nonempty (image : ndarray) (radius : Z) (C i : nat)
      (circ : rect) :
  is_uint16 image = true -> roi_pixels image radius circ <> [] ->
  exists rec m,
    measure_well image radius C i circ = Ret rec /\
    mode_statistic (roi_pixels image radius circ) = Ret m /\
    m_mode rec = Z.of_nat m.
Proof.
  intros Hu Hne.
  destruct (@mode_statistic_spec (roi_pixels image radius circ) Hne)
    as [m [Hm _]].
  { intros v Hv. apply (proj1 (roi_pixels_uint16 _ _ _ _ Hu Hv)). }
  destruct (median_finite _ Hne) as [q Hq].
  unfold measure_well. rewrite Hm, Hq. cbn [bind].
  destruct (roi_pixels image radius circ) as [|x roi]; [congruence|].
  cbn [amin amax bind int_].
  eexists; exists m. split; [reflexivity|]. split; reflexivity.
Qed.

(** On an empty window line 817 raises: the empty frequency table has no
    largest entry. *)
Lemma measure_well_empty (image : ndarray) (radius : Z) (C i : nat)
      (circ : rect) :
  roi_pixels image radius circ = [] ->
  measure_well image radius C i circ = Raise ValueError.
Proof. intros He. unfold measure_well. now rewrite He. Qed.

(** C8: for a non-empty window of a 16-bit image the loop body returns a
    record whose mode occurs in the window, occurs at least as often as
    every other value, and is the smallest value that occurs that often;
    the mode of 5,5,5,7,9 is 5 and the mode of 1,1,2,2 is 1. *)
Theorem C8_mode_smallest_most_frequent :
  (forall (image : ndarray) (radius : Z) (C i : nat) (circ : rect),
      is_uint16 image = true ->
      roi_pixels image radius circ <> [] ->
      exists rec,
        measure_well image radius C i circ = Ret rec /\
        let roi := roi_pixels image radius circ in
        In (m_mode rec) roi /\
        (forall v, (count v roi <= count (m_mode rec) roi)%nat) /\
        (forall v, count v roi = count (m_mode rec) roi -> (m_mode rec <= v)%Z)) /\
  mode_statistic [5; 5; 5; 7; 9]%Z = Ret 5%nat /\
  mode_statistic [1; 1; 2; 2]%Z = Ret 1%nat.
Proof.
  split; [|split; reflexivity].
  intros image radius C i circ Hu Hne.
  destruct (measure_well_nonempty image radius C i circ Hu Hne)
    as [rec [m [Hrec [Hm Hmode]]]].
  destruct (@mode_statistic_spec (roi_pixels image radius circ) Hne)
    as [m' [Hm' Hspec]].
  { intros v Hv. apply (proj1 (roi_pixels_uint16 _ _ _ _ Hu Hv)). }
  rewrite Hm in Hm'. injection Hm' as <-.
  exists rec. split; [exact Hrec|]. cbn zeta. rewrite Hmode. exact Hspec.
Qed.

(** The statement at the window 1,1,2,2 laid out as a 2 x 2 image. *)
Lemma C8_mode_witness :
  let image := [[1; 1]; [2; 2]]%Z in
  let circ := {| rx := -14; ry := -14; rw := 30; rh := 30 |} in
  is_uint16 image = true /\
  roi_pixels image 15 circ <> [] /\
  exists rec,
    measure_well image 15 COLUMNS 0 circ = Ret rec /\
    let roi := roi_pixels image 15 circ in
    In (m_mode rec) roi /\
    (forall v, (count v roi <= count (m_mode rec) roi)%nat) /\
    (forall v, count v roi = count (m_mode rec) roi -> (m_mode rec <= v)%Z).
Proof.
  cbv zeta.
  assert (Hu : is_uint16 [[1; 1]; [2; 2]]%Z = true) by reflexivity.
  assert (Hne : roi_pixels [[1; 1]; [2; 2]]%Z 15
                  {| rx := -14; ry := -14; rw := 30; rh := 30 |} <> [])
    by (vm_compute; discriminate).
  split; [exact Hu|]. split; [exact Hne|].
  exact (proj1 C8_mode_smallest_most_frequent _ _ _ _ _ Hu Hne).
Defined.

(** C2 (the code departs from it): on a 20 x 20 image with wells 10
    pixels apart, the fifth well (A05, center (40, 5)) lies right of the
    image; its window [25:20] is empty, the loop body raises ValueError
    there, and the pass stops with the four records made so far. *)
Theorem C2_empty_window_raises :
  let s := Fixtures.wide_grid in
  match current_image s, nth_error (circles s) 4 with
  | Some image, Some circ =>
      trunc (fst (rect_center circ)) = 40%Z /\
      trunc (snd (rect_center circ)) = 5%Z /\
      roi_pixels image (roi_radius s) circ = [] /\
      Spec.window_pixels image 40 5 (roi_radius s) = [] /\
      measure_well image (roi_radius s) (ncols s) 4 circ = Raise ValueError
  | _, _ => False
  end /\
  snd (measure_grid s) = Some ValueError /\
  map m_well (measurements (fst (measure_grid s)))
  = ["A01"; "A02"; "A03"; "A04"]%string.
Proof. vm_compute. repeat split. Qed.

(** C6 (the code departs from it): after the grid has been moved 20
    pixels to the left, well A01 has center (-20, 5); the clamped window
    [-35, -5) x [-10, 20) holds no pixel of the 20 x 20 image, but the
    negative upper bound -5 counts from the right edge, and the record
    is computed over columns 0 to 14 of every row. *)
Theorem C6_negative_bound_wraps_around :
  let s := Fixtures.shifted_grid in
  match current_image s, hd_error (circles s),
        hd_error (measurements (fst (measure_grid s))) with
  | Some image, Some circ, Some rec =>
      trunc (fst (rect_center circ)) = (-20)%Z /\
      trunc (snd (rect_center circ)) = 5%Z /\
      Spec.window_pixels image (-20) 5 (roi_radius s) = [] /\
      roi_pixels image (roi_radius s) circ = concat (map (firstn 15) image) /\
      List.length (roi_pixels image (roi_radius s) circ) = 300%nat /\
      m_well rec = "A01"%string /\ m_x_center rec = (-20)%Z /\
      m_min rec = 0%Z /\ m_max rec = 394%Z
  | _, _, _ => False
  end.
Proof. vm_compute. repeat split. Qed.

(* ================================================================== *)
(** * The grid of well centers                                         *)
(* ================================================================== *)

Example get_well_name_first_last :
  get_well_name 0 0 = "A01"%string /\ get_well_name 7 11 = "H12"%string.
Proof. split; reflexivity. Qed.

Section Cells.

Local Open Scope nat_scope.

Variable C : nat.

Lemma cells_from_length (R a : nat) :
  List.length (flat_map (fun i => map (fun j => (i, j)) (seq 0 C)) (seq a R))
  = R * C.
Proof.
  revert a. induction R as [|R IH]; intros a; cbn [seq flat_map].
  - reflexivity.
  - rewrite length_app, length_map, length_seq, IH. lia.
Qed.

Lemma cells_from_nth (R : nat) : forall a i j,
  i < R -> j < C ->
  nth_error (flat_map (fun i => map (fun j => (i, j)) (seq 0 C)) (seq a R))
            (i * C + j)
  = Some (a + i, j).
Proof.
  induction R as [|R IH]; intros a i j Hi Hj; [lia|].
  cbn [seq flat_map].
  destruct i as [|i].
  - rewrite nth_error_app1 by (rewrite length_map, length_seq; cbn; lia).
    cbn [Nat.mul Nat.add].
    rewrite nth_error_map, nth_error_seq.
    apply Nat.ltb_lt in Hj. rewrite Hj. cbn. now rewrite Nat.add_0_r.
  - rewrite nth_error_app2 by (rewrite length_map, length_seq; cbn; lia).
    rewrite length_map, length_seq.
    replace (S i * C + j - C) with (i * C + j) by (cbn; lia).
    rewrite IH by lia. f_equal. f_equal. lia.
Qed.

Lemma cells_length (R : nat) : List.length (cells R C) = R * C.
Proof. apply cells_from_length. Qed.

Lemma cells_nth (R i j : nat) :
  i < R -> j < C -> nth_error (cells R C) (i * C + j) = Some (i, j).
Proof. intros Hi Hj. unfold cells. now rewrite cells_from_nth. Qed.

End Cells.

(* ================================================================== *)
(** * Sorting and percentiles                                          *)
(* ================================================================== *)

Section Sorting.

Local Open Scope Z_scope.

Lemma insert_In (x : Z) (l : list Z) (v : Z) :
  In v (insert x l) <-> v = x \/ In v l.
Proof.
  induction l as [|y l IH]; cbn.
  - intuition congruence.
  - destruct (x <=? y); cbn; [intuition congruence|].
    rewrite IH. intuition congruence.
Qed.

Lemma sort_In (l : list Z) (v : Z) : In v (sort l) <-> In v l.
Proof.
  induction l as [|x l IH]; cbn; [reflexivity|].
  rewrite insert_In, IH. intuition congruence.
Qed.





End Sorting.

Section Percentile.

Variables (s : list Z) (s0 : Z).


End Percentile.


(* ================================================================== *)
(** * The contrast adjuster                                            *)
(* ================================================================== *)

Section Contrast.

Lemma trunc_nonneg (q : Q) : 0 <= q -> trunc q = Qfloor q.
Proof.
  destruct q as [n d]. unfold Qle, trunc, Qfloor. cbn. intros H.
  apply Z.quot_div_nonneg; lia.
Qed.



End Contrast.

(* ================================================================== *)
(** * The window of a well whose upper bounds are not negative         *)
(* ================================================================== *)

Section Window.

Local Open Scope Z_scope.

Context {A : Type}.

Lemma between_firstn_skipn (l : list A) : forall k lo hi,
  flat_map (Spec.between lo hi) (Spec.indexed k l)
  = firstn (Z.to_nat (hi - Z.max lo k)) (skipn (Z.to_nat (lo - k)) l).
Proof.
  induction l as [|x l IH]; intros k lo hi.
  - now rewrite skipn_nil, firstn_nil.
  - cbn [Spec.indexed flat_map]. rewrite IH. unfold Spec.between at 1. cbn [fst snd].
    destruct (Z.leb_spec lo k) as [Hlo|Hlo]; cbn [andb].
    + replace (Z.to_nat (lo - k)) with 0%nat by lia.
      replace (Z.to_nat (lo - (k + 1))) with 0%nat by lia.
      cbn [skipn].
      destruct (Z.ltb_spec k hi) as [Hhi|Hhi].
      * replace (Z.to_nat (hi - Z.max lo k))
          with (S (Z.to_nat (hi - Z.max lo (k + 1)))) by lia.
        reflexivity.
      * replace (Z.to_nat (hi - Z.max lo k)) with 0%nat by lia.
        replace (Z.to_nat (hi - Z.max lo (k + 1))) with 0%nat by lia.
        reflexivity.
    + replace (Z.to_nat (lo - k)) with (S (Z.to_nat (lo - (k + 1)))) by lia.
      cbn [skipn app].
      replace (Z.max lo (k + 1)) with (Z.max lo k) by lia. reflexivity.
Qed.

(** A slice with bounds that are not negative keeps the positions
    between the bounds. *)
Lemma slice_between (l : list A) (lo hi : Z) :
  0 <= lo -> 0 <= hi ->
  slice l lo hi = flat_map (Spec.between lo hi) (Spec.indexed 0 l).
Proof.
  intros Hlo Hhi. rewrite between_firstn_skipn. unfold slice, slice_index.
  destruct (Z.ltb_spec lo 0); [lia|]. destruct (Z.ltb_spec hi 0); [lia|].
  set (n := Z.of_nat (List.length l)).
  rewrite Z.sub_0_r. replace (Z.max lo 0) with lo by lia.
  destruct (Z.le_gt_cases n lo) as [Hn|Hn].
  - rewrite !skipn_all2 by lia. now rewrite !firstn_nil.
  - replace (Z.min lo n) with lo by lia.
    destruct (Z.le_gt_cases hi n) as [Hh|Hh].
    + now replace (Z.min hi n) with hi by lia.
    + replace (Z.min hi n) with n by lia.
      rewrite !firstn_all2; [reflexivity| |]; rewrite length_skipn; lia.
Qed.

End Window.

Lemma flat_map_filtered {A B C : Type} (c : A -> bool) (g : C -> list B)
      (h : A -> C) (l : list A) :
  flat_map g (flat_map (fun a => if c a then [h a] else []) l)
  = flat_map (fun a => if c a then g (h a) else []) l.
Proof.
  induction l as [|a l IH]; cbn; [reflexivity|].
  rewrite flat_map_app, IH. destruct (c a); cbn; [|reflexivity].
  now rewrite app_nil_r.
Qed.

Lemma flat_map_nil {A B : Type} (l : list A) :
  flat_map (fun _ : A => @nil B) l = [].
Proof. induction l as [|a l IH]; cbn; [reflexivity|exact IH]. Qed.

(** When neither upper bound is negative, the pixels that line 813 cuts
    out are those of the square window clamped to the image, row by
    row: no test against a disk, and the samples are those of the image
    passed in, which [measure_grid] takes from [current_image]. *)
Lemma roi_pixels_clamped_window (image : ndarray) (radius : Z) (circ : rect) :
  let cx := trunc (fst (rect_center circ)) in
  let cy := trunc (snd (rect_center circ)) in
  (0 <= cx + radius)%Z -> (0 <= cy + radius)%Z ->
  roi_pixels image radius circ = Spec.window_pixels image cx cy radius.
Proof.
  intros cx cy Hx Hy.
  unfold roi_pixels, Spec.window_pixels, ravel, slice2. fold cx cy.
  assert (HW : (0 <= shape1 image)%Z) by (unfold shape1; destruct image; lia).
  assert (HH : (0 <= shape0 image)%Z) by (unfold shape0; lia).
  rewrite <- flat_map_concat_map.
  rewrite (slice_between image) by lia.
  unfold Spec.between at 1. rewrite (flat_map_filtered _ _ snd).
  apply flat_map_ext. intros [y row]. cbn [fst snd].
  rewrite (slice_between row) by lia. unfold Spec.between.
  destruct ((Z.max 0 (cy - radius) <=? y)%Z
            && (y <? Z.min (shape0 image) (cy + radius))%Z) eqn:Hrow.
  - apply flat_map_ext. intros [x v]. cbn [fst snd].
    replace (Spec.in_window cx cy radius (shape1 image) (shape0 image) x y)
      with ((Z.max 0 (cx - radius) <=? x)%Z
            && (x <? Z.min (shape1 image) (cx + radius))%Z); [reflexivity|].
    apply andb_true_iff in Hrow. destruct Hrow as [Hr1 Hr2].
    apply Z.leb_le in Hr1. apply Z.ltb_lt in Hr2.
    apply eq_true_iff_eq. unfold Spec.in_window.
    rewrite !andb_true_iff, !Z.leb_le, !Z.ltb_lt. lia.
  - rewrite <- (flat_map_nil (Spec.indexed 0%Z row)) at 1.
    apply flat_map_ext. intros [x v]. cbn [fst snd].
    replace (Spec.in_window cx cy radius (shape1 image) (shape0 image) x y)
      with false; [reflexivity|].
    symmetry. apply not_true_is_false. intros Hw. unfold Spec.in_window in Hw.
    rewrite !andb_true_iff, !Z.leb_le, !Z.ltb_lt in Hw.
    apply andb_false_iff in Hrow. rewrite Z.leb_gt, Z.ltb_ge in Hrow. lia.
Qed.
(* ================================================================== *)
(** * The reachable states                                             *)
(* ================================================================== *)

Section WellFormed.

(** What [update_grid] leaves in the tracking lists. *)
Lemma update_grid_three (s : state) (c0 c1 c2 : vec) :
  corners s = [c0; c1; c2] ->
  update_grid s
  = set_labels (Inv.expected_labels s)
      (set_circles (Inv.expected_circles s)
         (set_corner_lines (Inv.expected_lines s) s)).
Proof.
  intros Hc.
  unfold update_grid, draw_grid, draw_orientation_lines, erase_grid,
    Inv.expected_labels, Inv.expected_circles, Inv.expected_lines, grid_centers.
  rewrite Hc. proj_simpl. rewrite Hc. reflexivity.
Qed.

Lemma update_grid_other (s : state) :
  List.length (corners s) <> 3%nat -> update_grid s = s.
Proof.
  intros Hc.
  unfold update_grid, draw_grid, draw_orientation_lines, erase_grid.
  destruct (corners s) as [|c0 [|c1 [|c2 [|c3 l]]]] eqn:E;
    proj_simpl; rewrite ?E; try reflexivity.
  cbn in Hc. congruence.
Qed.

End WellFormed.
Ltac wf_unfold :=
  unfold Inv.well_formed, Inv.consistent, Inv.expected_circles,
    Inv.expected_labels, Inv.expected_lines, grid_centers in *.

(** The tracking lists after [update_grid] on a state [t] that has the
    corners, the markers and, short of three corners, the empty lists
    of a well-formed state. *)
Lemma update_grid_consistent (t : state) :
  corner_points t = map Inv.corner_marker (corners t) ->
  (List.length (corners t) <> 3%nat ->
   circles t = [] /\ labels t = [] /\ corner_lines t = []) ->
  Inv.consistent (update_grid t).
Proof.
  intros Hp Hempty.
  destruct (Nat.eq_dec (List.length (corners t)) 3) as [H3|H3].
  - destruct (corners t) as [|c0 [|c1 [|c2 [|c3 l]]]] eqn:E; try discriminate.
    rewrite (update_grid_three t c0 c1 c2 E).
    wf_unfold. proj_simpl. rewrite E. repeat split. exact Hp.
  - rewrite (update_grid_other t H3).
    destruct (Hempty H3) as [Hc [Hl Hcl]].
    wf_unfold. rewrite Hc, Hl, Hcl, Hp.
    destruct (corners t) as [|c0 [|c1 [|c2 [|c3 l]]]] eqn:E;
      cbn in H3; try congruence; repeat split.
Qed.

Lemma consistent_short (s : state) :
  Inv.consistent s -> List.length (corners s) <> 3%nat ->
  circles s = [] /\ labels s = [] /\ corner_lines s = [].
Proof.
  intros [Hc [Hl [Hcl _]]] H3. wf_unfold.
  destruct (corners s) as [|c0 [|c1 [|c2 [|c3 l]]]] eqn:E;
    cbn in H3; try congruence; repeat split; assumption.
Qed.

Lemma update_grid_frame (t : state) :
  corners (update_grid t) = corners t /\
  grid_defined (update_grid t) = grid_defined t /\
  defining_grid (update_grid t) = defining_grid t /\
  current_image (update_grid t) = current_image t /\
  nrows (update_grid t) = nrows t /\ ncols (update_grid t) = ncols t.
Proof. repeat split; frame. Qed.

(** [update_grid] after a change of parameters that leaves the corners,
    the image, the two flags and the tracking lists alone. *)
Lemma update_grid_well_formed (s t : state) :
  Inv.well_formed s ->
  corners t = corners s -> grid_defined t = grid_defined s ->
  defining_grid t = defining_grid s -> current_image t = current_image s ->
  nrows t = nrows s -> ncols t = ncols s ->
  circles t = circles s -> labels t = labels s ->
  corner_lines t = corner_lines s -> corner_points t = corner_points s ->
  Inv.well_formed (update_grid t).
Proof.
  intros [Ha [Hb [Hc [Hd [Hr [Hcol Hcons]]]]]] Ec Eg Ed Ei Er Ecol Ecirc El Ecl Ep.
  destruct (update_grid_frame t) as [Fc [Fg [Fd [Fi [Fr Fcol]]]]].
  assert (Hnew : Inv.consistent (update_grid t)).
  { apply update_grid_consistent.
    - rewrite Ep, Ec. apply Hcons.
    - rewrite Ec, Ecirc, El, Ecl. apply consistent_short, Hcons. }
  unfold Inv.well_formed.
  rewrite Fc, Fg, Fd, Fi, Fr, Fcol, Ec, Eg, Ed, Ei, Er, Ecol.
  repeat split; try assumption; try apply Hb; apply Hnew.
Qed.

(** A change that leaves the grid alone and does not unload the image. *)
Lemma well_formed_same (s t : state) :
  Inv.well_formed s ->
  corners t = corners s -> grid_defined t = grid_defined s ->
  defining_grid t = defining_grid s ->
  (current_image t = current_image s \/ current_image t <> None) ->
  nrows t = nrows s -> ncols t = ncols s ->
  grid_offset t = grid_offset s -> grid_spacing t = grid_spacing s ->
  roi_radius t = roi_radius s ->
  circles t = circles s -> labels t = labels s ->
  corner_lines t = corner_lines s -> corner_points t = corner_points s ->
  Inv.well_formed t.
Proof.
  intros [Ha [Hb [Hc [Hd [Hr [Hcol Hcons]]]]]]
         Ec Eg Ed Ei Er Ecol Eo Es Erad Ecirc El Ecl Ep.
  wf_unfold.
  rewrite Ec, Eg, Ed, Er, Ecol, Eo, Es, Erad, Ecirc, El, Ecl, Ep.
  repeat split; try assumption; try apply Hb; try apply Hcons.
  - intros Hdef. destruct Ei as [Ei|Ei]; [rewrite Ei; auto|exact Ei].
  - intros Hnone. destruct Ei as [Ei|Ei]; [rewrite Ei in Hnone; auto|congruence].
Qed.

Ltac same_fields := try reflexivity; try (left; reflexivity).

Lemma update_image_well_formed (s : state) :
  Inv.well_formed s -> Inv.well_formed (update_image s).
Proof.
  intros H. unfold update_image.
  destruct (current_image s); [|exact H].
  destruct (adjust_image s n); [|exact H].
  apply (update_grid_well_formed s s H); reflexivity.
Qed.

Lemma well_formed_not_three (s : state) :
  Inv.well_formed s -> grid_defined s = false ->
  List.length (corners s) <> 3%nat.
Proof.
  intros [_ [Hb _]] Hg H3. apply Hb in H3. congruence.
Qed.

Lemma reset_grid_well_formed (s : state) :
  Inv.well_formed s ->
  Inv.well_formed (reset_grid s) /\ grid_defined (reset_grid s) = false /\
  defining_grid (reset_grid s) = defining_grid s /\
  current_image (reset_grid s) = current_image s.
Proof.
  intros H. unfold reset_grid.
  destruct (grid_defined s) eqn:Hg;
    [|split; [exact H|repeat split; assumption]].
  destruct H as [Ha [Hb [Hc [Hd [Hr [Hcol Hcons]]]]]].
  unfold remove_grid, erase_grid. wf_unfold. proj_simpl.
  repeat split; try assumption; try lia; try discriminate; auto.
Qed.

Lemma init_well_formed : Inv.well_formed init_variables.
Proof.
  wf_unfold. proj_simpl.
  repeat split; try lia; try discriminate; auto.
Qed.

Lemma step_well_formed (s : state) (e : event) :
  Inv.well_formed s -> Inv.well_formed (step s e).
Proof.
  intros H. destruct e; cbn [step].
  - (* load_image *)
    unfold load_image.
    set (s1 := set_images (images s ++ [promote m]) s).
    assert (H1 : Inv.well_formed s1)
      by (apply (well_formed_same s); same_fields; exact H).
    destruct (List.length (images s1) =? 1)%nat; [|exact H1].
    unfold show_image. destruct (nth_error (images s1) 0); [|exact H1].
    apply update_image_well_formed.
    apply (well_formed_same s1); same_fields; [exact H1|].
    right. discriminate.
  - (* adjust_saturation *)
    apply update_image_well_formed.
    apply (well_formed_same s); same_fields; exact H.
  - (* toggle_define_grid_mode *)
    unfold toggle_define_grid_mode.
    destruct (reset_grid_well_formed s H) as [Hr [Hg [Hd Hi]]].
    destruct (defining_grid s) eqn:Hdef.
    + unfold reset_define_grid.
      destruct Hr as [Ha [Hb [Hc [Hd' [Hrow [Hcol Hcons]]]]]].
      wf_unfold. proj_simpl.
      repeat split; try assumption; try apply Hb; try apply Hcons.
      discriminate.
    + assert (Hdefine : forall t, Inv.well_formed t ->
                Inv.well_formed (define_grid t)).
      { intros t Ht. unfold define_grid.
        destruct (current_image t) eqn:Himg; [|exact Ht].
        destruct (reset_grid_well_formed t Ht) as [Hr' [Hg' [_ Hi']]].
        pose proof (well_formed_not_three _ Hr' Hg') as H3.
        destruct Hr' as [Ha [Hb [Hc [Hd' [Hrow [Hcol Hcons]]]]]].
        wf_unfold. proj_simpl.
        repeat split; try assumption; try apply Hcons;
          try congruence; try discriminate. }
      destruct (grid_defined s); apply Hdefine; assumption.
  - (* on_mouse_press *)
    unfold on_mouse_press.
    destruct ((List.length (corners s) <? 3)%nat && defining_grid s) eqn:Hgo;
      [|exact H].
    apply andb_true_iff in Hgo. destruct Hgo as [Hlt Hdef].
    apply Nat.ltb_lt in Hlt.
    destruct H as [Ha [Hb [Hc [Hd [Hrow [Hcol Hcons]]]]]].
    pose proof (Hc Hdef) as Himg.
    assert (Hg : grid_defined s = false).
    { apply not_true_is_false. intros E. apply Hb in E. lia. }
    proj_simpl. rewrite length_app. cbn [List.length].
    destruct (List.length (corners s) + 1 =? 3)%nat eqn:H3.
    + apply Nat.eqb_eq in H3.
      set (t := set_defining_grid false _).
      destruct (update_grid_frame t) as [Fc [Fg [Fd [Fi [Fr Fcol]]]]].
      change (draw_grid (draw_orientation_lines t)) with (update_grid t).
      assert (Hnew : Inv.consistent (update_grid t)).
      { apply update_grid_consistent.
        - subst t. proj_simpl. rewrite map_app.
          destruct Hcons as [_ [_ [_ Hp]]]. rewrite Hp. reflexivity.
        - subst t. proj_simpl. rewrite length_app. cbn [List.length]. lia. }
      unfold Inv.well_formed. rewrite Fc, Fg, Fd, Fi, Fr, Fcol.
      subst t. proj_simpl. rewrite length_app. cbn [List.length].
      repeat split; try assumption; try lia; try discriminate;
        try apply Hnew; try (intros Hn; congruence); auto.
    + apply Nat.eqb_neq in H3.
      destruct (consistent_short s) as [Ec [El Ecl]];
        [exact Hcons|lia|].
      destruct Hcons as [_ [_ [_ Hp]]].
      wf_unfold. proj_simpl. rewrite length_app, map_app. cbn [List.length].
      rewrite Ec, El, Ecl, Hp.
      destruct (corners s ++ [scene_pos]) as [|c0 [|c1 [|c2 [|c3 l]]]] eqn:E;
        try (apply (f_equal (@List.length vec)) in E;
             rewrite length_app in E; cbn in E; lia);
        repeat split; try lia; try assumption; try congruence;
          try (intros; exfalso; congruence).
  - (* adjust_roi_radius *)
    apply (update_grid_well_formed s); same_fields; exact H.
  - (* move_grid *)
    apply (update_grid_well_formed s); same_fields; exact H.
  - (* adjust_grid_spacing *)
    unfold adjust_grid_spacing.
    destruct (String.eqb direction "width");
      [|destruct (String.eqb direction "height")];
      apply (update_grid_well_formed s); same_fields; exact H.
  - (* set_spacing_increment *)
    apply (well_formed_same s); same_fields; exact H.
  - (* measure_grid *)
    unfold measure_grid.
    destruct (current_image s); [|exact H].
    destruct (circles s) eqn:Ecirc; [exact H|]. cbn [fst].
    apply (well_formed_same s); same_fields; exact H.
  - (* reset_app *)
    apply init_well_formed.
Qed.

(** The invariant of the state machine [step], whose slots run to
    completion (see the conventions): at most three corners are
    stored; the grid is defined exactly when there are three; corners
    are only picked, and only kept, with an image loaded; the plate has
    8 rows and 12 columns; and the circles, labels, orientation lines
    and corner markers are those of the current corners, offset,
    spacing and radius. *)
Theorem reachable_well_formed (es : list event) :
  Inv.well_formed (run init_variables es).
Proof.
  apply run_invariant; [apply step_well_formed|apply init_well_formed].
Qed.

(** Without an image, Define Grid, a click and Measure Grid leave the
    state as it is, and no corner or circle is stored. *)
Theorem reachable_no_image_no_op (es : list event) (p : vec) :
  let s := run init_variables es in
  current_image s = None ->
  toggle_define_grid_mode s = s /\ on_mouse_press p s = s /\
  measure_grid s = (s, None) /\ corners s = [] /\ circles s = [].
Proof.
  intros s Hnone.
  destruct (reachable_well_formed es)
    as [Ha [Hb [Hc [Hd [Hr [Hcol [Hcirc _]]]]]]].
  fold s in Ha, Hb, Hc, Hd, Hcirc.
  pose proof (Hd Hnone) as Hcor.
  assert (Hdef : defining_grid s = false)
    by (apply not_true_is_false; intros E; apply Hc in E; congruence).
  assert (Hg : grid_defined s = false).
  { apply not_true_is_false. intros E. apply Hb in E.
    rewrite Hcor in E. discriminate. }
  repeat split.
  - unfold toggle_define_grid_mode, define_grid. now rewrite Hdef, Hg, Hnone.
  - unfold on_mouse_press. rewrite Hdef, andb_false_r. reflexivity.
  - unfold measure_grid. now rewrite Hnone.
  - exact Hcor.
  - rewrite Hcirc. unfold Inv.expected_circles, grid_centers.
    now rewrite Hcor.
Qed.

Lemma reachable_no_image_no_op_witness :
  let s := run init_variables
             [ToggleDefineGrid; MousePress (1, 1); MoveGrid 1 0; MeasureGrid] in
  current_image s = None /\
  (toggle_define_grid_mode s = s /\ on_mouse_press (2, 3) s = s /\
   measure_grid s = (s, None) /\ corners s = [] /\ circles s = []).
Proof.
  cbv zeta.
  assert (H : current_image
                (run init_variables
                   [ToggleDefineGrid; MousePress (1, 1); MoveGrid 1 0;
                    MeasureGrid]) = None) by reflexivity.
  split; [exact H|].
  exact (reachable_no_image_no_op _ (2, 3) H).
Defined.

(* ================================================================== *)
(** * Translating the grid                                             *)
(* ================================================================== *)

(** Two moves are one move by the sum. *)
Theorem move_grid_compose (s : state) (a b c d : Z) :
  move_grid c d (move_grid a b s) = move_grid (a + c) (b + d) s.
Proof.
  unfold move_grid, update_grid, draw_grid, draw_orientation_lines,
    erase_grid, grid_centers.
  destruct s as [im ci rr nr nc go gs co cp cl ci' la me sf dg gd si].
  proj_simpl.
  destruct co as [|c0 [|c1 [|c2 [|c3 l]]]]; proj_simpl;
    rewrite <- !Z.add_assoc; reflexivity.
Qed.

(* ================================================================== *)
(** * The measurement pass as a whole                                  *)
(* ================================================================== *)

(** A second pass finds what the first one left. *)
Theorem measure_grid_idempotent (s : state) :
  measure_grid (fst (measure_grid s)) = measure_grid s.
Proof.
  unfold measure_grid.
  destruct (current_image s) as [image|] eqn:Hi; cbn [fst].
  - destruct (circles s) as [|circ rest] eqn:Hc; cbn [fst].
    + now rewrite Hi, Hc.
    + proj_simpl. rewrite Hi, Hc. reflexivity.
  - now rewrite Hi.
Qed.

(** What a record says about its well. *)
Lemma measure_well_fields (image : ndarray) (radius : Z) (C i : nat)
      (circ : rect) (rec : measurement) :
  measure_well image radius C i circ = Ret rec ->
  m_well rec = get_well_name (i / C) (i mod C) /\
  m_x_center rec = trunc (fst (rect_center circ)) /\
  m_y_center rec = trunc (snd (rect_center circ)) /\
  mode_statistic (roi_pixels image radius circ) = Ret (Z.to_nat (m_mode rec)) /\
  amin (roi_pixels image radius circ) = Ret (m_min rec) /\
  amax (roi_pixels image radius circ) = Ret (m_max rec) /\
  int_ (median (roi_pixels image radius circ)) = Ret (m_median rec) /\
  m_mean rec = mean (roi_pixels image radius circ) /\
  m_var rec = var (roi_pixels image radius circ).
Proof.
  unfold measure_well.
  destruct (mode_statistic _) as [m|]; cbn [bind]; [|discriminate].
  destruct (amin _) as [mn|]; cbn [bind]; [|discriminate].
  destruct (amax _) as [mx|]; cbn [bind]; [|discriminate].
  destruct (int_ _) as [md|]; cbn [bind]; [|discriminate].
  intros H. injection H as <-. cbn. rewrite Nat2Z.id. repeat split.
Qed.

Lemma measure_loop_spec (image : ndarray) (radius : Z) (C : nat)
      (circs : list rect) :
  forall (i : nat) (acc : list measurement),
  exists recs : list measurement,
    fst (measure_loop image radius C i circs acc) = acc ++ recs /\
    (List.length recs <= List.length circs)%nat /\
    (forall k rec, nth_error recs k = Some rec ->
       exists circ, nth_error circs k = Some circ /\
                    measure_well image radius C (i + k) circ = Ret rec) /\
    (snd (measure_loop image radius C i circs acc) = None ->
     List.length recs = List.length circs) /\
    (forall ex, snd (measure_loop image radius C i circs acc) = Some ex ->
       exists circ, nth_error circs (List.length recs) = Some circ /\
                    measure_well image radius C (i + List.length recs) circ
                    = Raise ex).
Proof.
  induction circs as [|circ rest IH]; intros i acc; cbn [measure_loop].
  - exists []. rewrite app_nil_r. cbn. repeat split; auto.
    + intros k rec H. destruct k; discriminate.
    + intros ex H. discriminate.
  - destruct (measure_well image radius C i circ) as [m|e] eqn:Hm.
    + destruct (IH (S i) (acc ++ [m])) as [recs [Hf [Hl [Hk [Hn He]]]]].
      exists (m :: recs). rewrite Hf, <- app_assoc. cbn [app List.length].
      split; [reflexivity|]. split; [lia|]. split; [|split].
      * intros [|k] rec H; cbn in H.
        -- injection H as <-. exists circ. rewrite Nat.add_0_r. now split.
        -- destruct (Hk k rec H) as [c [Hc Hw]]. exists c.
           replace (i + S k)%nat with (S i + k)%nat by lia. now split.
      * intros H. now rewrite Hn.
      * intros ex H. destruct (He ex H) as [c [Hc Hw]]. exists c.
        replace (i + S (List.length recs))%nat
          with (S i + List.length recs)%nat by lia. now split.
    + exists []. rewrite app_nil_r. cbn [fst snd List.length nth_error].
      split; [reflexivity|]. split; [lia|]. split; [|split].
      * intros k rec H. destruct k; discriminate.
      * discriminate.
      * intros ex H. injection H as <-. exists circ.
        rewrite Nat.add_0_r. now split.
Qed.

(** With an image and circles, the pass leaves one record per circle,
    in order, up to the first circle whose window raises: record k is
    the one of circle k, named after row k / ncols and column k mod
    ncols and located at the truncated center of the circle; without an
    exception there are as many records as circles, and an exception
    is the one raised at the first circle that has no record. *)
Theorem measure_grid_records :
  forall (s : state) (image : ndarray),
    current_image s = Some image -> circles s <> [] ->
    let recs := measurements (fst (measure_grid s)) in
    (List.length recs <= List.length (circles s))%nat /\
    (forall k rec, nth_error recs k = Some rec ->
       exists circ,
         nth_error (circles s) k = Some circ /\
         measure_well image (roi_radius s) (ncols s) k circ = Ret rec /\
         m_well rec = get_well_name (k / ncols s) (k mod ncols s) /\
         m_x_center rec = trunc (fst (rect_center circ)) /\
         m_y_center rec = trunc (snd (rect_center circ))) /\
    (snd (measure_grid s) = None ->
     List.length recs = List.length (circles s)) /\
    (forall ex, snd (measure_grid s) = Some ex ->
       exists circ,
         nth_error (circles s) (List.length recs) = Some circ /\
         measure_well image (roi_radius s) (ncols s) (List.length recs) circ
         = Raise ex).
Proof.
  intros s image Hi Hc recs. subst recs. unfold measure_grid. rewrite Hi.
  destruct (circles s) as [|c0 cs] eqn:E; [congruence|].
  cbn [fst snd]. proj_simpl.
  destruct (measure_loop_spec image (roi_radius s) (ncols s) (c0 :: cs) 0 [])
    as [recs [Hf [Hl [Hk [Hn He]]]]].
  cbn [app] in Hf. rewrite Hf.
  split; [exact Hl|]. split; [|split; [exact Hn|exact He]].
  intros k rec H. destruct (Hk k rec H) as [circ [Hcirc Hw]].
  cbn [Nat.add] in Hw. exists circ. split; [exact Hcirc|]. split; [exact Hw|].
  destruct (measure_well_fields _ _ _ _ _ _ Hw) as [H1 [H2 [H3 _]]].
  repeat split; assumption.
Qed.

Lemma measure_grid_records_witness :
  let s := Fixtures.wide_grid in
  let image := Fixtures.ramp 20 20 in
  current_image s = Some image /\ circles s <> [] /\
  let recs := measurements (fst (measure_grid s)) in
  (List.length recs <= List.length (circles s))%nat /\
  (forall k rec, nth_error recs k = Some rec ->
     exists circ,
       nth_error (circles s) k = Some circ /\
       measure_well image (roi_radius s) (ncols s) k circ = Ret rec /\
       m_well rec = get_well_name (k / ncols s) (k mod ncols s) /\
       m_x_center rec = trunc (fst (rect_center circ)) /\
       m_y_center rec = trunc (snd (rect_center circ))) /\
  (snd (measure_grid s) = None ->
   List.length recs = List.length (circles s)) /\
  (forall ex, snd (measure_grid s) = Some ex ->
     exists circ,
       nth_error (circles s) (List.length recs) = Some circ /\
       measure_well image (roi_radius s) (ncols s) (List.length recs) circ
       = Raise ex).
Proof.
  cbv zeta.
  assert (Hi : current_image Fixtures.wide_grid = Some (Fixtures.ramp 20 20))
    by (vm_compute; reflexivity).
  assert (Hc : circles Fixtures.wide_grid <> []) by (vm_compute; discriminate).
  split; [exact Hi|]. split; [exact Hc|].
  exact (measure_grid_records Fixtures.wide_grid _ Hi Hc).
Defined.

(* ================================================================== *)
(** * The window of a well inside the image                            *)
(* ================================================================== *)

Lemma slice_length {A : Type} (l : list A) (lo hi : Z) :
  (0 <= lo <= hi)%Z -> (hi <= Z.of_nat (List.length l))%Z ->
  List.length (slice l lo hi) = Z.to_nat (hi - lo).
Proof.
  intros H0 H1. unfold slice, slice_index.
  destruct (Z.ltb_spec lo 0); [lia|]. destruct (Z.ltb_spec hi 0); [lia|].
  rewrite length_firstn, length_skipn. lia.
Qed.

Lemma concat_map_length {A B : Type} (f : A -> list B) (n : nat) (l : list A) :
  (forall a, In a l -> List.length (f a) = n) ->
  List.length (concat (map f l)) = (n * List.length l)%nat.
Proof.
  induction l as [|a l IH]; intros H; cbn [map concat List.length]; [lia|].
  rewrite length_app, IH, (H a (or_introl eq_refl)); [lia|].
  intros b Hb. apply H. now right.
Qed.

(** A well whose square lies inside a rectangular image is measured over
    exactly 2r x 2r pixels. *)
Theorem roi_pixels_inside :
  forall (image : ndarray) (radius : Z) (circ : rect),
    Inv.is_rectangular image = true ->
    let cx := trunc (fst (rect_center circ)) in
    let cy := trunc (snd (rect_center circ)) in
    (0 <= radius)%Z ->
    (radius <= cx)%Z -> (cx + radius <= shape1 image)%Z ->
    (radius <= cy)%Z -> (cy + radius <= shape0 image)%Z ->
    List.length (roi_pixels image radius circ)
    = Z.to_nat ((2 * radius) * (2 * radius)).
Proof.
  intros image radius circ Hrect cx cy Hr Hx0 Hx1 Hy0 Hy1.
  unfold roi_pixels, ravel, slice2. fold cx cy.
  replace (Z.max 0 (cx - radius)) with (cx - radius)%Z by lia.
  replace (Z.min (shape1 image) (cx + radius)) with (cx + radius)%Z by lia.
  replace (Z.max 0 (cy - radius)) with (cy - radius)%Z by lia.
  replace (Z.min (shape0 image) (cy + radius)) with (cy + radius)%Z by lia.
  rewrite (concat_map_length _ (Z.to_nat (2 * radius))).
  - rewrite slice_length by (unfold shape0 in Hy1; lia). lia.
  - intros row Hrow. apply slice_incl in Hrow.
    unfold Inv.is_rectangular in Hrect. rewrite forallb_forall in Hrect.
    specialize (Hrect row Hrow). apply Z.eqb_eq in Hrect.
    change (View.cols image) with (shape1 image) in Hrect.
    rewrite slice_length by lia. lia.
Qed.

Lemma roi_pixels_inside_witness :
  let image := Fixtures.ramp 40 50 in
  let circ := ellipse_item (20, 17) 15 in
  Inv.is_rectangular image = true /\
  let cx := trunc (fst (rect_center circ)) in
  let cy := trunc (snd (rect_center circ)) in
  (0 <= 15)%Z /\
  (15 <= cx)%Z /\ (cx + 15 <= shape1 image)%Z /\
  (15 <= cy)%Z /\ (cy + 15 <= shape0 image)%Z /\
  List.length (roi_pixels image 15 circ) = Z.to_nat ((2 * 15) * (2 * 15)).
Proof.
  intros image circ. cbv zeta.
  assert (Hrect : Inv.is_rectangular image = true) by (vm_compute; reflexivity).
  assert (H0 : (0 <= 15)%Z) by lia.
  assert (H1 : (15 <= trunc (fst (rect_center circ)))%Z)
    by (vm_compute; discriminate).
  assert (H2 : (trunc (fst (rect_center circ)) + 15 <= shape1 image)%Z)
    by (vm_compute; discriminate).
  assert (H3 : (15 <= trunc (snd (rect_center circ)))%Z)
    by (vm_compute; discriminate).
  assert (H4 : (trunc (snd (rect_center circ)) + 15 <= shape0 image)%Z)
    by (vm_compute; discriminate).
  repeat (split; [assumption|]).
  exact (roi_pixels_inside image 15 circ Hrect H0 H1 H2 H3 H4).
Defined.

(** The window of the well at (12, 5) on a 20 x 20 image. *)
Lemma roi_pixels_clamped_window_witness :
  let image := Fixtures.ramp 20 20 in
  let circ := ellipse_item (12, 5) 15 in
  let cx := trunc (fst (rect_center circ)) in
  let cy := trunc (snd (rect_center circ)) in
  (0 <= cx + 15)%Z /\ (0 <= cy + 15)%Z /\
  roi_pixels image 15 circ = Spec.window_pixels image cx cy 15.
Proof.
  intros image circ. cbv zeta.
  assert (Hx : (0 <= trunc (fst (rect_center circ)) + 15)%Z)
    by (vm_compute; discriminate).
  assert (Hy : (0 <= trunc (snd (rect_center circ)) + 15)%Z)
    by (vm_compute; discriminate).
  split; [exact Hx|]. split; [exact Hy|].
  exact (roi_pixels_clamped_window image 15 circ Hx Hy).
Defined.

(* ================================================================== *)
(** * The statistics of a window                                       *)
(* ================================================================== *)

Section Statistics.

Local Open Scope Z_scope.

Lemma minimum_In (l : list Z) : forall x, In (minimum x l) (x :: l).
Proof.
  unfold minimum. induction l as [|y l IH]; intros x; cbn [fold_left].
  - now left.
  - destruct (IH (Z.min x y)) as [H|H]; [|right; right; exact H].
    rewrite <- H.
    destruct (Z.min_spec x y) as [[_ E]|[_ E]]; rewrite E; [now left|right; now left].
Qed.

Lemma maximum_In (l : list Z) : forall x, In (maximum x l) (x :: l).
Proof.
  unfold maximum. induction l as [|y l IH]; intros x; cbn [fold_left].
  - now left.
  - destruct (IH (Z.max x y)) as [H|H]; [|right; right; exact H].
    rewrite <- H.
    destruct (Z.max_spec x y) as [[_ E]|[_ E]]; rewrite E; [right; now left|now left].
Qed.

Lemma sumZ_bounds (l : list Z) (lo hi : Z) :
  (forall v, In v l -> lo <= v <= hi) ->
  lo * Z.of_nat (List.length l) <= sumZ l <= hi * Z.of_nat (List.length l).
Proof.
  induction l as [|x l IH]; intros H.
  - cbn. lia.
  - cbn [sumZ fold_right List.length].
    assert (Hx := H x (or_introl eq_refl)).
    assert (Hl : forall v, In v l -> lo <= v <= hi)
      by (intros v Hv; apply H; now right).
    specialize (IH Hl). unfold sumZ in IH. lia.
Qed.

(** The value [int()] gives for a float between two integers. *)
Lemma trunc_between (q : Q) (lo hi : Z) :
  0 <= lo -> (inject_Z lo <= q <= inject_Z hi)%Q -> lo <= trunc q <= hi.
Proof.
  intros H0 [Hlo Hhi].
  assert (Hq : (0 <= q)%Q).
  { apply Qle_trans with (inject_Z lo); [|exact Hlo].
    change 0%Q with (inject_Z 0). rewrite <- Zle_Qle. exact H0. }
  rewrite (trunc_nonneg q Hq). split.
  - rewrite <- (Qfloor_Z lo). now apply Qfloor_resp_le.
  - rewrite <- (Qfloor_Z hi). now apply Qfloor_resp_le.
Qed.

Lemma median_between (l : list Z) (lo hi : Z) :
  l <> [] -> (forall v, In v l -> lo <= v <= hi) ->
  exists q, median l = Fin q /\ (inject_Z lo <= q <= inject_Z hi)%Q.
Proof.
  intros Hne Hb. unfold median.
  destruct (sort l) as [|s0 s'] eqn:Hs.
  - apply (f_equal (@List.length Z)) in Hs. rewrite sort_length in Hs.
    destruct l; [congruence|discriminate].
  - assert (Hnth : forall k, lo <= nth k (s0 :: s') s0 <= hi).
    { intros k. apply Hb. apply sort_In. rewrite Hs.
      destruct (Nat.lt_ge_cases k (List.length (s0 :: s'))) as [Hk|Hk].
      - now apply nth_In.
      - rewrite nth_overflow by exact Hk. now left. }
    destruct (Nat.even _); eexists; (split; [reflexivity|]).
    + set (a := nth _ _ _). set (b := nth _ _ _).
      pose proof (Hnth (List.length (s0 :: s') / 2 - 1)%nat) as Ha.
      pose proof (Hnth (List.length (s0 :: s') / 2)%nat) as Hb'.
      fold a in Ha. fold b in Hb'.
      destruct Ha as [Ha0 Ha1], Hb' as [Hb0 Hb1].
      rewrite Zle_Qle in Ha0, Ha1, Hb0, Hb1.
      split; [apply Qle_shift_div_l|apply Qle_shift_div_r]; lra.
    + specialize (Hnth (List.length (s0 :: s') / 2)%nat).
      rewrite <- !Zle_Qle. exact Hnth.
Qed.

Lemma mean_between (l : list Z) (lo hi : Z) :
  l <> [] -> (forall v, In v l -> lo <= v <= hi) ->
  exists q, mean l = Fin q /\ (inject_Z lo <= q <= inject_Z hi)%Q.
Proof.
  intros Hne Hb. pose proof (sumZ_bounds l lo hi Hb) as [H0 H1].
  destruct l as [|x l']; [congruence|].
  unfold mean. eexists. split; [reflexivity|]. unfold len.
  set (n := Z.of_nat (List.length (x :: l'))) in *.
  assert (Hn : (0 < inject_Z n)%Q).
  { change 0%Q with (inject_Z 0). rewrite <- Zlt_Qlt. subst n. cbn. lia. }
  split.
  - apply Qle_shift_div_l; [exact Hn|].
    rewrite <- inject_Z_mult, <- Zle_Qle. exact H0.
  - apply Qle_shift_div_r; [exact Hn|].
    rewrite <- inject_Z_mult, <- Zle_Qle. exact H1.
Qed.

End Statistics.

(** For a non-empty window of a 16-bit image, the record's minimum and
    maximum are pixels of the window and bound every pixel of it, and
    the median, the mode and the mean lie between them. *)
Theorem measure_well_bounds :
  forall (image : ndarray) (radius : Z) (C i : nat) (circ : rect),
    is_uint16 image = true ->
    roi_pixels image radius circ <> [] ->
    exists rec,
      measure_well image radius C i circ = Ret rec /\
      let roi := roi_pixels image radius circ in
      In (m_min rec) roi /\ In (m_max rec) roi /\
      (forall v, In v roi -> (m_min rec <= v <= m_max rec)%Z) /\
      (m_min rec <= m_median rec <= m_max rec)%Z /\
      (m_min rec <= m_mode rec <= m_max rec)%Z /\
      exists mu, m_mean rec = Fin mu /\
                 inject_Z (m_min rec) <= mu <= inject_Z (m_max rec).
Proof.
  intros image radius C i circ Hu Hne.
  destruct (measure_well_nonempty image radius C i circ Hu Hne)
    as [rec [m [Hrec [Hm Hmode]]]].
  exists rec. split; [exact Hrec|]. cbv zeta.
  destruct (measure_well_fields _ _ _ _ _ _ Hrec)
    as [_ [_ [_ [_ [Hmin [Hmax [Hmed [Hmean _]]]]]]]].
  set (roi := roi_pixels image radius circ) in *.
  assert (Hpos : forall v, In v roi -> (0 <= v)%Z)
    by (intros v Hv; apply (roi_pixels_uint16 _ _ _ _ Hu Hv)).
  destruct roi as [|x roi'] eqn:Eroi; [congruence|].
  cbn [amin amax] in Hmin, Hmax.
  injection Hmin as Hmin. injection Hmax as Hmax.
  assert (Hin_min : In (m_min rec) (x :: roi'))
    by (rewrite <- Hmin; apply minimum_In).
  assert (Hin_max : In (m_max rec) (x :: roi'))
    by (rewrite <- Hmax; apply maximum_In).
  assert (Hb : forall v, In v (x :: roi') -> (m_min rec <= v <= m_max rec)%Z).
  { intros v Hv. rewrite <- Hmin, <- Hmax. split.
    - now apply minimum_le.
    - now apply maximum_ge. }
  split; [exact Hin_min|]. split; [exact Hin_max|]. split; [exact Hb|].
  split; [|split].
  - destruct (median_between (x :: roi') _ _ Hne Hb) as [q [Hq Hqb]].
    rewrite Hq in Hmed. cbn [int_] in Hmed. injection Hmed as <-.
    apply trunc_between; [apply Hpos, Hin_min|exact Hqb].
  - apply Hb.
    destruct (mode_statistic_spec (x :: roi') Hne Hpos) as [m' [Hm' [Hin _]]].
    rewrite Hm in Hm'. injection Hm' as <-. now rewrite Hmode.
  - destruct (mean_between (x :: roi') _ _ Hne Hb) as [q [Hq Hqb]].
    exists q. split; [now rewrite Hmean|exact Hqb].
Qed.

Lemma measure_well_bounds_witness :
  let image := [[3; 9; 4]; [7; 7; 5]]%Z in
  let circ := ellipse_item (1, 1) 15 in
  is_uint16 image = true /\
  roi_pixels image 15 circ <> [] /\
  exists rec,
    measure_well image 15 COLUMNS 0 circ = Ret rec /\
    let roi := roi_pixels image 15 circ in
    In (m_min rec) roi /\ In (m_max rec) roi /\
    (forall v, In v roi -> (m_min rec <= v <= m_max rec)%Z) /\
    (m_min rec <= m_median rec <= m_max rec)%Z /\
    (m_min rec <= m_mode rec <= m_max rec)%Z /\
    exists mu, m_mean rec = Fin mu /\
               inject_Z (m_min rec) <= mu <= inject_Z (m_max rec).
Proof.
  intros image circ.
  assert (Hu : is_uint16 image = true) by reflexivity.
  assert (Hne : roi_pixels image 15 circ <> []) by (vm_compute; discriminate).
  split; [exact Hu|]. split; [exact Hne|].
  exact (measure_well_bounds image 15 COLUMNS 0 circ Hu Hne).
Defined.

Section ConstantWindow.

Lemma sort_repeat (v : Z) (n : nat) : sort (repeat v n) = repeat v n.
Proof.
  induction n as [|n IH]; cbn [repeat sort]; [reflexivity|].
  rewrite IH. destruct n; cbn [repeat insert]; [reflexivity|].
  now rewrite Z.leb_refl.
Qed.

Lemma sumQ_zero (l : list Q) : (forall q, In q l -> q == 0) -> sumQ l == 0.
Proof.
  induction l as [|q l IH]; intros H; cbn [sumQ fold_right]; [reflexivity|].
  rewrite Qred_correct. fold (sumQ l).
  rewrite (H q (or_introl eq_refl)), IH; [reflexivity|].
  intros r Hr. apply H. now right.
Qed.

Lemma var_of_mean (l : list Z) (m : Q) :
  mean l = Fin m ->
  exists va,
    var l = Fin va /\
    va = sumQ (map (fun w => (inject_Z w - m) * (inject_Z w - m)) l) / len l.
Proof.
  destruct l as [|x l]; [discriminate|].
  unfold mean, var. intros H. injection H as <-.
  eexists. split; reflexivity.
Qed.

(** A window whose pixels all have the value v gives median, mode,
    minimum and maximum v, mean v and variance 0. *)
Theorem measure_well_constant :
  forall (image : ndarray) (radius : Z) (C i : nat) (circ : rect)
         (v : Z) (n : nat),
    (0 <= v)%Z ->
    roi_pixels image radius circ = repeat v (S n) ->
    exists rec mu va,
      measure_well image radius C i circ = Ret rec /\
      m_median rec = v /\ m_mode rec = v /\ m_min rec = v /\ m_max rec = v /\
      m_mean rec = Fin mu /\ mu == inject_Z v /\
      m_var rec = Fin va /\ va == 0.
Proof.
  intros image radius C i circ v n Hv Hroi.
  set (roi := repeat v (S n)) in *.
  assert (Hne : roi <> []) by discriminate.
  assert (Hall : forall w, In w roi -> (v <= w <= v)%Z)
    by (intros w Hw; apply repeat_spec in Hw; lia).
  assert (Hpos : forall w, In w roi -> (0 <= w)%Z)
    by (intros w Hw; specialize (Hall w Hw); lia).
  destruct (mode_statistic_spec roi Hne Hpos) as [m [Hm [Hmin _]]].
  apply repeat_spec in Hmin.
  destruct (median_between roi v v Hne Hall) as [q [Hq Hqb]].
  destruct (mean_between roi v v Hne Hall) as [mu [Hmu Hmub]].
  unfold measure_well. rewrite Hroi. fold roi. rewrite Hm, Hq. cbn [bind].
  assert (Emin : amin roi = Ret v).
  { subst roi. cbn [repeat amin]. f_equal.
    pose proof (minimum_In (repeat v n) v) as H.
    change (v :: repeat v n) with (repeat v (S n)) in H.
    now apply repeat_spec in H. }
  assert (Emax : amax roi = Ret v).
  { subst roi. cbn [repeat amax]. f_equal.
    pose proof (maximum_In (repeat v n) v) as H.
    change (v :: repeat v n) with (repeat v (S n)) in H.
    now apply repeat_spec in H. }
  rewrite Emin, Emax. cbn [bind int_].
  assert (Hmean : mu == inject_Z v) by (apply Qle_antisym; apply Hmub).
  assert (Hvar : exists va, var roi = Fin va /\ va == 0).
  { destruct (var_of_mean roi mu Hmu) as [va [Hva ->]].
    exists (sumQ (map (fun w => (inject_Z w - mu) * (inject_Z w - mu)) roi)
            / len roi).
    split; [exact Hva|].
    unfold Qdiv. rewrite sumQ_zero; [ring|].
    intros r Hr. apply in_map_iff in Hr. destruct Hr as [w [<- Hw]].
    apply repeat_spec in Hw. subst w. rewrite Hmean. ring. }
  destruct Hvar as [va [Hva Hva0]].
  eexists. exists mu, va.
  split; [reflexivity|]. cbn.
  split; [pose proof (trunc_between q v v Hv Hqb); lia|].
  split; [exact Hmin|]. split; [reflexivity|]. split; [reflexivity|].
  split; [exact Hmu|]. split; [exact Hmean|].
  split; [exact Hva|exact Hva0].
Qed.

Lemma measure_well_constant_witness :
  let image := Cv2.samples (Fixtures.flat16 40 40 1000) in
  let circ := ellipse_item (20, 20) 15 in
  (0 <= 1000)%Z /\
  roi_pixels image 15 circ = repeat 1000%Z (S 899) /\
  exists rec mu va,
    measure_well image 15 COLUMNS 0 circ = Ret rec /\
    m_median rec = 1000%Z /\ m_mode rec = 1000%Z /\
    m_min rec = 1000%Z /\ m_max rec = 1000%Z /\
    m_mean rec = Fin mu /\ mu == inject_Z 1000 /\
    m_var rec = Fin va /\ va == 0.
Proof.
  intros image circ.
  assert (Hv : (0 <= 1000)%Z) by lia.
  assert (Hroi : roi_pixels image 15 circ = repeat 1000%Z (S 899))
    by (vm_compute; reflexivity).
  split; [exact Hv|]. split; [exact Hroi|].
  exact (measure_well_constant image 15 COLUMNS 0 circ 1000 899 Hv Hroi).
Defined.

End ConstantWindow.

(* ================================================================== *)
(** * The contrast adjuster: domain, range and order                   *)
(* ================================================================== *)

Section ContrastOrder.














End ContrastOrder.

(* ================================================================== *)
(** * Loading an 8-bit image                                           *)
(* ================================================================== *)

(** An 8-bit image enters the session with every non-zero sample at 255
    and every zero sample at 0; the result holds 16-bit values. *)
Theorem promote_eight_bit :
  forall a : ndarray,
    Inv.is_uint8 a = true ->
    promote {| Cv2.depth := Cv2.uint8; Cv2.samples := a |}
    = map (map (fun v => if (v =? 0)%Z then 0%Z else 255%Z)) a /\
    is_uint16 (promote {| Cv2.depth := Cv2.uint8; Cv2.samples := a |}) = true.
Proof.
  intros a Ha.
  assert (E : promote {| Cv2.depth := Cv2.uint8; Cv2.samples := a |}
              = map (map (fun v => if (v =? 0)%Z then 0%Z else 255%Z)) a).
  { unfold promote, Cv2.convertScaleAbs. cbn [Cv2.depth Cv2.samples].
    unfold Inv.is_uint8 in Ha. rewrite forallb_forall in Ha.
    apply map_ext_in. intros row Hrow. specialize (Ha row Hrow).
    rewrite forallb_forall in Ha.
    apply map_ext_in. intros v Hv. specialize (Ha v Hv).
    apply andb_true_iff in Ha. destruct Ha as [H0 H1].
    apply Z.leb_le in H0, H1.
    destruct (Z.eqb_spec v 0) as [->|Hnz]; [reflexivity|].
    apply convertScaleAbs_saturates. lia. }
  split; [exact E|]. rewrite E.
  unfold is_uint16. apply forallb_forall. intros row Hrow.
  apply in_map_iff in Hrow. destruct Hrow as [r [<- _]].
  apply forallb_forall. intros v Hv.
  apply in_map_iff in Hv. destruct Hv as [w [<- _]].
  destruct (w =? 0)%Z; reflexivity.
Qed.

Lemma promote_eight_bit_witness :
  let a := [[0; 1; 128]; [255; 7; 0]]%Z in
  Inv.is_uint8 a = true /\
  promote {| Cv2.depth := Cv2.uint8; Cv2.samples := a |}
  = map (map (fun v => if (v =? 0)%Z then 0%Z else 255%Z)) a /\
  is_uint16 (promote {| Cv2.depth := Cv2.uint8; Cv2.samples := a |}) = true.
Proof.
  intros a.
  assert (Ha : Inv.is_uint8 a = true) by reflexivity.
  split; [exact Ha|]. exact (promote_eight_bit a Ha).
Defined.

(* ================================================================== *)
(** * Well names                                                       *)
(* ================================================================== *)

Section WellNames.

Local Open Scope nat_scope.

(** Reading the two-digit column number back. *)
Lemma zero_pad2_decode (n : nat) :
  option_map Nat.of_uint (NilEmpty.uint_of_string (zero_pad2 n)) = Some n.
Proof.
  unfold zero_pad2.
  destruct (String.length (NilEmpty.string_of_uint (Nat.to_uint n)) <? 2).
  - cbn [append NilEmpty.uint_of_string].
    rewrite NilEmpty.usu. cbn. f_equal.
    apply DecimalNat.Unsigned.of_to.
  - rewrite NilEmpty.usu. cbn. f_equal. apply DecimalNat.Unsigned.of_to.
Qed.

(** On the rows A to Z, different wells have different names. *)
Theorem get_well_name_injective :
  forall row col row' col' : nat,
    row < 26 -> row' < 26 ->
    get_well_name row col = get_well_name row' col' ->
    row = row' /\ col = col'.
Proof.
  intros row col row' col' Hr Hr' H. unfold get_well_name in H.
  injection H as Hletter Hnumber.
  split.
  - apply (f_equal nat_of_ascii) in Hletter.
    rewrite !nat_ascii_embedding in Hletter
      by (change (nat_of_ascii "A") with 65; lia).
    lia.
  - pose proof (zero_pad2_decode (col + 1)) as H1.
    pose proof (zero_pad2_decode (col' + 1)) as H2.
    rewrite Hnumber in H1. rewrite H1 in H2. injection H2 as H2. lia.
Qed.

Lemma get_well_name_injective_witness :
  7 < 26 /\ 7 < 26 /\ get_well_name 7 11 = get_well_name 7 11 /\
  (7 = 7 /\ 11 = 11).
Proof.
  assert (H : 7 < 26) by lia.
  assert (E : get_well_name 7 11 = get_well_name 7 11) by reflexivity.
  split; [exact H|]. split; [exact H|]. split; [exact E|].
  exact (get_well_name_injective 7 11 7 11 H H E).
Defined.

End WellNames.

(* ================================================================== *)
(** * Records and labels                                               *)
(* ================================================================== *)

Lemma cells_nth_position (R C k : nat) :
  (k < R * C)%nat -> nth_error (cells R C) k = Some ((k / C)%nat, (k mod C)%nat).
Proof.
  intros Hk. assert (HC : C <> 0%nat) by (intros ->; lia).
  rewrite (Nat.div_mod_eq k C) at 1.
  rewrite (Nat.mul_comm C). apply cells_nth.
  - apply Nat.Div0.div_lt_upper_bound. lia.
  - now apply Nat.mod_upper_bound.
Qed.

(** With a defined grid, the records of a pass carry, in order, the
    names written on the labels of the wells they measure. *)
Theorem measure_names_match_labels :
  forall es : list event,
    let s := run init_variables es in
    grid_defined s = true ->
    let recs := measurements (fst (measure_grid s)) in
    map m_well recs = firstn (List.length recs) (labels s).
Proof.
  intros es s Hg recs.
  destruct (reachable_well_formed es)
    as [Ha [Hb [_ [Hd [Hr [Hc [Hcirc [Hlab _]]]]]]]].
  fold s in Ha, Hb, Hd, Hr, Hc, Hcirc, Hlab.
  apply Hb in Hg.
  destruct (corners s) as [|c0 [|c1 [|c2 [|c3 l]]]] eqn:Ecor; try discriminate.
  destruct (current_image s) as [image|] eqn:Hi;
    [|specialize (Hd eq_refl); discriminate].
  unfold Inv.expected_labels in Hlab. rewrite Ecor in Hlab.
  assert (Hlen : List.length (circles s) = (nrows s * ncols s)%nat).
  { rewrite Hcirc. unfold Inv.expected_circles, grid_centers. rewrite Ecor.
    now rewrite !length_map, cells_length. }
  subst recs. unfold measure_grid. rewrite Hi.
  destruct (circles s) as [|circ0 rest] eqn:Ecirc;
    [rewrite Hr, Hc in Hlen; discriminate|].
  cbn [fst]. proj_simpl.
  destruct (measure_loop_spec image (roi_radius s) (ncols s) (circ0 :: rest) 0 [])
    as [recs [Hf [Hl [Hk _]]]].
  cbn [app] in Hf. rewrite Hf.
  apply nth_error_ext. intros k.
  rewrite nth_error_map.
  destruct (nth_error recs k) as [rec|] eqn:Hrec; cbn [option_map].
  - assert (Hlt : (k < List.length recs)%nat)
      by (apply nth_error_Some; congruence).
    destruct (Hk k rec Hrec) as [circ [_ Hw]]. cbn [Nat.add] in Hw.
    destruct (measure_well_fields _ _ _ _ _ _ Hw) as [Hname _].
    rewrite nth_error_firstn.
    apply Nat.ltb_lt in Hlt. rewrite Hlt. apply Nat.ltb_lt in Hlt.
    rewrite Hlab, nth_error_map, cells_nth_position by lia.
    cbn [option_map fst snd]. now rewrite Hname.
  - apply nth_error_None in Hrec.
    symmetry. apply nth_error_None. rewrite length_firstn. lia.
Qed.

Lemma measure_names_match_labels_witness :
  let es := [LoadImage (Fixtures.ramp16 20 20); ToggleDefineGrid;
             MousePress (0, 5); MousePress (110, 5); MousePress (0, 75)] in
  let s := run init_variables es in
  grid_defined s = true /\
  let recs := measurements (fst (measure_grid s)) in
  map m_well recs = firstn (List.length recs) (labels s).
Proof.
  intros es s.
  assert (Hg : grid_defined s = true) by (vm_compute; reflexivity).
  split; [exact Hg|]. exact (measure_names_match_labels es Hg).
Defined.

(* ================================================================== *)
(** * The magnifier                                                    *)
(* ================================================================== *)

Lemma nth_error_slice {A : Type} (l : list A) (lo hi : Z) (k : nat) :
  (0 <= lo <= hi)%Z -> (hi <= Z.of_nat (List.length l))%Z ->
  (Z.of_nat k < hi - lo)%Z ->
  nth_error (slice l lo hi) k = nth_error l (Z.to_nat lo + k).
Proof.
  intros H0 H1 Hk. unfold slice, slice_index.
  destruct (Z.ltb_spec lo 0); [lia|]. destruct (Z.ltb_spec hi 0); [lia|].
  rewrite nth_error_firstn.
  replace (k <? Z.to_nat (Z.min hi (Z.of_nat (List.length l))
                          - Z.min lo (Z.of_nat (List.length l))))%nat
    with true by (symmetry; apply Nat.ltb_lt; lia).
  rewrite nth_error_skipn. f_equal. lia.
Qed.

(** With the cursor over a pixel, the region handed to the magnifier is
    not empty: it has between 1 and 60 rows of between 1 and 60 samples
    each, and it holds the pixel under the cursor. *)
Theorem magnifier_region_inframe :
  forall (A : Type) (image : ndarray) (adjusted : list (list A)) (x y : Z),
    View.rows adjusted = shape0 image ->
    View.cols adjusted = shape1 image ->
    Inv.is_rectangular adjusted = true ->
    View.is_cursor_inframe image x y = true ->
    let region := View.magnifier_region adjusted x y in
    let x_min := Z.max 0 (x - 30) in
    let y_min := Z.max 0 (y - 30) in
    let w := (Z.min (shape1 image) (x + 30) - x_min)%Z in
    let h := (Z.min (shape0 image) (y + 30) - y_min)%Z in
    (1 <= w <= 60)%Z /\ (1 <= h <= 60)%Z /\
    List.length region = Z.to_nat h /\
    (forall r, In r region -> List.length r = Z.to_nat w) /\
    exists row r pixel,
      nth_error adjusted (Z.to_nat y) = Some row /\
      nth_error row (Z.to_nat x) = Some pixel /\
      nth_error region (Z.to_nat (y - y_min)) = Some r /\
      nth_error r (Z.to_nat (x - x_min)) = Some pixel.
Proof.
  intros A image adjusted x y Hrows Hcols Hrect Hin region x_min y_min w h.
  unfold View.is_cursor_inframe in Hin.
  rewrite !andb_true_iff, !Z.leb_le, !Z.ltb_lt in Hin.
  destruct Hin as [[[Hx0 Hx1] Hy0] Hy1].
  unfold Inv.is_rectangular in Hrect. rewrite forallb_forall in Hrect.
  assert (Hrowlen : forall r, In r adjusted ->
            Z.of_nat (List.length r) = shape1 image).
  { intros r Hr. specialize (Hrect r Hr). apply Z.eqb_eq in Hrect. lia. }
  assert (Hlen : Z.of_nat (List.length adjusted) = shape0 image)
    by exact Hrows.
  subst region. unfold View.magnifier_region, View.region_size.
  rewrite Hrows, Hcols. fold x_min y_min.
  split; [subst w x_min; lia|]. split; [subst h y_min; lia|].
  split; [|split].
  - rewrite length_map, slice_length by (subst y_min; lia). reflexivity.
  - intros r Hr. apply in_map_iff in Hr. destruct Hr as [row [<- Hrow]].
    apply slice_incl in Hrow. specialize (Hrowlen row Hrow).
    rewrite slice_length by (subst x_min; lia). reflexivity.
  - destruct (nth_error adjusted (Z.to_nat y)) as [row|] eqn:Erow;
      [|apply nth_error_None in Erow; lia].
    pose proof (Hrowlen row (nth_error_In _ _ Erow)) as Hrl.
    destruct (nth_error row (Z.to_nat x)) as [pixel|] eqn:Epix;
      [|apply nth_error_None in Epix; lia].
    exists row, (slice row x_min (Z.min (shape1 image) (x + 30))), pixel.
    split; [reflexivity|]. split; [exact Epix|]. split.
    + rewrite nth_error_map, nth_error_slice by (subst y_min; lia).
      replace (Z.to_nat y_min + Z.to_nat (y - y_min))%nat with (Z.to_nat y)
        by (subst y_min; lia).
      now rewrite Erow.
    + rewrite nth_error_slice by (subst x_min; lia).
      replace (Z.to_nat x_min + Z.to_nat (x - x_min))%nat with (Z.to_nat x)
        by (subst x_min; lia).
      exact Epix.
Qed.

Lemma magnifier_region_inframe_witness :
  let image := Fixtures.ramp 40 50 in
  View.rows image = shape0 image /\
  View.cols image = shape1 image /\
  Inv.is_rectangular image = true /\
  View.is_cursor_inframe image 3 35 = true /\
  let region := View.magnifier_region image 3 35 in
  let x_min := Z.max 0 (3 - 30) in
  let y_min := Z.max 0 (35 - 30) in
  let w := (Z.min (shape1 image) (3 + 30) - x_min)%Z in
  let h := (Z.min (shape0 image) (35 + 30) - y_min)%Z in
  (1 <= w <= 60)%Z /\ (1 <= h <= 60)%Z /\
  List.length region = Z.to_nat h /\
  (forall r, In r region -> List.length r = Z.to_nat w) /\
  exists row r pixel,
    nth_error image (Z.to_nat 35) = Some row /\
    nth_error row (Z.to_nat 3) = Some pixel /\
    nth_error region (Z.to_nat (35 - y_min)) = Some r /\
    nth_error r (Z.to_nat (3 - x_min)) = Some pixel.
Proof.
  intros image.
  assert (H1 : View.rows image = shape0 image) by reflexivity.
  assert (H2 : View.cols image = shape1 image) by reflexivity.
  assert (H3 : Inv.is_rectangular image = true) by (vm_compute; reflexivity).
  assert (H4 : View.is_cursor_inframe image 3 35 = true)
    by (vm_compute; reflexivity).
  split; [exact H1|]. split; [exact H2|]. split; [exact H3|].
  split; [exact H4|].
  exact (magnifier_region_inframe Z image image 3 35 H1 H2 H3 H4).
Defined.

(* ================================================================== *)
(** * Rounding to binary64                                              *)
(* ================================================================== *)

Section Rounding.

Import F64.










(** ** The binary exponent *)






(** ** The nearest integer *)








(** ** Rounding of a positive value *)








(** ** Rounding of any value *)















(** ** Results of operations *)







End Rounding.

(** Some roundings: 0.1; the ties 2 ^ 53 + 1 and 2 ^ 53 + 3, to the even
    significand; half the smallest subnormal; the halfway point between
    the largest finite value and 2 ^ 1024; and 11 * (15 / 11). *)
Example rounding_examples :
  F64.fin (1 # 10) = Fin (3602879701896397 # 36028797018963968) /\
  F64.of_Z (2 ^ 53 + 1) = Fin (inject_Z (2 ^ 53)) /\
  F64.of_Z (2 ^ 53 + 3) = Fin (inject_Z (2 ^ 53 + 4)) /\
  F64.fin (F64.pow2 (-1075)) = Fin 0 /\
  F64.of_Z (2 ^ 1024 - 2 ^ 970) = PInf /\
  F64.of_Z (2 ^ 1024 - 2 ^ 970 - 1) = Fin (inject_Z (2 ^ 1024 - 2 ^ 971)) /\
  F64.mul (F64.of_Z 11) (F64.div (F64.of_Z 15) (F64.of_Z 11))
  = Fin (8444249301319679 # 562949953421312).
Proof. repeat split; vm_compute; reflexivity. Qed.

(* ================================================================== *)
(** * The grid in binary64                                              *)
(* ================================================================== *)

Section FloatGrid.

Import F64.
















End FloatGrid.



(* ================================================================== *)
(** * The contrast adjuster in binary64                                 *)
(* ================================================================== *)

Section FloatContrast.

Import F64.

Local Open Scope Z_scope.






(** ** The two percentiles *)











End FloatContrast.


